(** * Price-update ingestion of the used-vehicle backend

    A model of [PriceProcessorService] (services/priceProcessor.ts), of the
    administrative trigger handler of [HealthController]
    (controllers/authController.ts) and of the scheduler callback of
    index.ts, together with the properties of the ingestion pipeline.

    The service is asynchronous JavaScript: every [async] method is written
    here as a tree of the operations it performs ([Async]), in the order of
    the source, and an event loop ([step]) runs such trees from one
    suspension point to the next, so that calls coming from the scheduler,
    from the HTTP handler and from anywhere else interleave exactly where
    the source awaits. *)

From Stdlib Require Import Bool List ZArith NArith Arith Lia Ascii String
  DecimalString.
Import ListNotations.

Local Open Scope string_scope.

(** ** JavaScript values the service works with *)

Module Js.

(** What a [catch] clause can receive: an [Error] object with its message,
    or any other thrown value, kept as the text [String(value)]. *)
Inductive Thrown : Type :=
| ErrorObj (message : string)
| NonError (text : string).

Definition instanceofError (e : Thrown) : bool :=
  match e with ErrorObj _ => true | NonError _ => false end.

(** A settled promise. *)
Inductive Settled (A : Type) : Type :=
| Fulfilled (a : A)
| Rejected (e : Thrown).
Arguments Fulfilled {A} a.
Arguments Rejected {A} e.

(** A JavaScript number as [parseFloat] produces it.  A finite number is
    kept as the decimal the literal denotes, [(-1)^neg * mantissa *
    10^exp10]; the rounding of that decimal to a double is not part of the
    model (it does not change whether the result is NaN, and it keeps the
    sign). *)
Inductive Number : Type :=
| NaN
| Infinity (neg : bool)
| Finite (neg : bool) (mantissa : N) (exp10 : Z).

Definition isNaN (x : Number) : bool :=
  match x with NaN => true | _ => false end.

(** [x >= 0], on the decimal a finite number stands for: false for NaN. *)
Definition geZero (x : Number) : bool :=
  match x with
  | NaN => false
  | Infinity neg => negb neg
  | Finite neg m _ => negb neg || (m =? 0)%N
  end.

(** A non-negative decimal: a finite number that is [>= 0]. *)
Definition nonNegativeDecimal (x : Number) : bool :=
  match x with
  | Finite _ _ _ => geZero x
  | _ => false
  end.

Definition isDigit (c : ascii) : bool :=
  let n := nat_of_ascii c in ((48 <=? n) && (n <=? 57))%nat.

Definition digitValue (c : ascii) : N := N.of_nat (nat_of_ascii c - 48).

(** StrWhiteSpaceChar, on the ASCII range: TAB, LF, VT, FF, CR, SP. *)
Definition isWhiteSpace (c : ascii) : bool :=
  let n := nat_of_ascii c in (((9 <=? n) && (n <=? 13)) || (n =? 32))%nat.

(** A string holds the UTF-8 bytes of the JavaScript string.  The
    StrWhiteSpaceChar of two bytes: U+00A0. *)
Definition isWhiteSpace2 (c1 c2 : ascii) : bool :=
  ((nat_of_ascii c1 =? 194) && (nat_of_ascii c2 =? 160))%nat.

(** The StrWhiteSpaceChar of three bytes: U+1680, U+2000 to U+200A,
    U+2028, U+2029, U+202F, U+205F, U+3000 and U+FEFF. *)
Definition isWhiteSpace3 (c1 c2 c3 : ascii) : bool :=
  let n1 := nat_of_ascii c1 in
  let n2 := nat_of_ascii c2 in
  let n3 := nat_of_ascii c3 in
  (((n1 =? 225) && (n2 =? 154) && (n3 =? 128))
   || ((n1 =? 226) && (n2 =? 128)
       && (((128 <=? n3) && (n3 <=? 138))
           || (n3 =? 168) || (n3 =? 169) || (n3 =? 175)))
   || ((n1 =? 226) && (n2 =? 129) && (n3 =? 159))
   || ((n1 =? 227) && (n2 =? 128) && (n3 =? 128))
   || ((n1 =? 239) && (n2 =? 187) && (n3 =? 191)))%nat.

(** TrimString(string, start): the leading white space and line
    terminators are dropped. *)
Fixpoint trimStart (s : string) : string :=
  match s with
  | String c1 r1 =>
      if isWhiteSpace c1 then trimStart r1
      else
        match r1 with
        | String c2 r2 =>
            if isWhiteSpace2 c1 c2 then trimStart r2
            else
              match r2 with
              | String c3 r3 =>
                  if isWhiteSpace3 c1 c2 c3 then trimStart r3 else s
              | EmptyString => s
              end
        | EmptyString => s
        end
  | EmptyString => s
  end.

(** Reads the leading decimal digits of [s] on top of the accumulator:
    the accumulated value, how many digits were read, and the rest. *)
Fixpoint readDigits (s : string) (acc : N) (count : nat) : N * nat * string :=
  match s with
  | String c rest =>
      if isDigit c then readDigits rest (acc * 10 + digitValue c)%N (S count)
      else (acc, count, s)
  | EmptyString => (acc, count, s)
  end.

Definition readSign (s : string) : bool * string :=
  match s with
  | String "-" rest => (true, rest)
  | String "+" rest => (false, rest)
  | _ => (false, s)
  end.

(** The ExponentPart of a StrDecimalLiteral, when one is there in full
    ([e] or [E], an optional sign, at least one digit); 0 otherwise. *)
Definition readExponent (s : string) : Z :=
  match s with
  | String c rest =>
      if (Ascii.eqb c "e" || Ascii.eqb c "E")%bool then
        let '(neg, rest') := readSign rest in
        let '(v, n, _) := readDigits rest' 0%N 0 in
        if (n =? 0)%nat then 0%Z
        else if neg then (- Z.of_N v)%Z else Z.of_N v
      else 0%Z
  | EmptyString => 0%Z
  end.

(** [parseFloat(string)]: leading white space is skipped, the longest
    prefix that is a StrDecimalLiteral is read, and NaN is the result when
    there is none. *)
Definition parseFloat (input : string) : Number :=
  let '(neg, s1) := readSign (trimStart input) in
  if String.prefix "Infinity" s1 then Infinity neg
  else
    let '(ip, ni, s2) := readDigits s1 0%N 0 in
    let '(m, nf, s3) :=
      match s2 with
      | String "." rest => readDigits rest ip 0
      | _ => (ip, 0, s2)
      end in
    if (ni + nf =? 0)%nat then NaN
    else Finite neg m (readExponent s3 - Z.of_nat nf).

(** [parseFloat(value)] on a value that may be [undefined]: the argument
    is converted with ToString first, and ["undefined"] has no numeric
    prefix. *)
Definition parseFloatOf (value : option string) : Number :=
  match value with
  | Some s => parseFloat s
  | None => parseFloat "undefined"
  end.

Definition startsWithDigit (s : string) : bool :=
  match s with
  | String c _ => isDigit c
  | EmptyString => false
  end.

(** Whether a prefix of [input] is a StrDecimalLiteral: after the leading
    white space and one optional sign comes [Infinity], a digit, or a dot
    and a digit. *)
Definition hasNumericPrefix (input : string) : bool :=
  let s1 := snd (readSign (trimStart input)) in
  String.prefix "Infinity" s1
  || startsWithDigit s1
  || match s1 with
     | String "." rest => startsWithDigit rest
     | _ => false
     end.

(** The same of a value that may be [undefined]. *)
Definition hasNumericPrefixOf (value : option string) : bool :=
  match value with
  | Some s => hasNumericPrefix s
  | None => false
  end.

(** [String.prototype.endsWith]. *)
Definition endsWith (s suffix : string) : bool :=
  let n := String.length s in
  let m := String.length suffix in
  (m <=? n)%nat && String.eqb (substring (n - m) m s) suffix.

(** [Array.prototype.sort(compareFn)]: the sort is stable (ECMAScript
    2019), so with a comparator that is a difference of integers its
    result is the one of a stable insertion sort: [x] goes before [y]
    when [compareFn(x, y) <= 0] and [x] came first. *)
Section Sort.
Variable A : Type.
Variable compareFn : A -> A -> Z.

Fixpoint insert (x : A) (l : list A) : list A :=
  match l with
  | [] => [x]
  | y :: ys => if (compareFn x y <=? 0)%Z then x :: l else y :: insert x ys
  end.

Fixpoint sort (l : list A) : list A :=
  match l with
  | [] => []
  | x :: xs => insert x (sort xs)
  end.
End Sort.

Arguments insert {A} compareFn x l.
Arguments sort {A} compareFn l.

End Js.


(** ** The data the pipeline handles *)

(** [PriceUpdate] of types/index.ts.  [vehicleId] is what the row holds in
    its [vehicle_id] column, [undefined] when the column is missing. *)
Record PriceUpdate : Type := {
  vehicleId : option string;
  newPrice : Js.Number;
  timestamp : Z
}.

(** A row object of csv-parser: the columns the service reads, by header
    name; a column the file does not have reads as [undefined]. *)
Record Row : Type := {
  vehicle_id : option string;
  new_price : option string
}.

(** An entry of [listResult.Contents]; [LastModified] is the date's
    [getTime()], in milliseconds. *)
Record S3Object : Type := {
  Key : option string;
  LastModified : option Z
}.

Record ListObjectsV2Output : Type := {
  Contents : option (list S3Object)
}.

Inductive Level : Type := Info | Warn | Error.

(** A call of the logger: [logger.<level>(message)] or
    [logger.error(message, { error: detail })]. *)
Record LogEntry : Type := {
  level : Level;
  message : string;
  meta : option string
}.

(** What the process reads synchronously from outside: its environment
    variables, the local file system and the clock. *)
Record World : Type := {
  AWS_S3_BUCKET : option string;
  localCsvExists : bool;
  now : Z
}.

(** The mutable fields of [PriceProcessorService]. *)
Record Service : Type := {
  isProcessing : bool;
  processingQueue : list PriceUpdate;
  processingLock : bool
}.

Definition set_isProcessing (b : bool) (this : Service) : Service :=
  {| isProcessing := b;
     processingQueue := processingQueue this;
     processingLock := processingLock this |}.

Definition set_processingLock (b : bool) (this : Service) : Service :=
  {| isProcessing := isProcessing this;
     processingQueue := processingQueue this;
     processingLock := b |}.

(** The stream a CSV is read from. *)
Inductive Source : Type :=
| S3Stream (Bucket Key : string)
| LocalStream (path : string).

(** A request that leaves the process: a listing of the bucket, the
    opening of a stream, or a price update sent to vehicle storage
    ([VehicleRepository.updatePrice]). *)
Inductive IoRequest : Type :=
| ListObjects (Bucket Prefix : string)
| OpenStream (src : Source)
| UpdatePrice (id : option string) (price : Js.Number).

(** ** Asynchronous code

    An [async] function body, as the tree of what it does next:
    - [Ret] and [Throw] end it, by [return] or by an exception;
    - [Read] and [Modify] read and assign the fields of the service
      instance, [Log] calls the logger, [Env] looks at the environment
      variables, the file system or the clock, [CreateReadStream] opens a
      stream; none of them gives control away;
    - [Tick], [AwaitList], [AwaitUpdatePrice] and [Listen] are the
      suspension points: the function gives control back to the event
      loop there, and goes on when the event loop wakes it up, in a later
      turn ([Tick]), with the answer to a listing or to a price update, or
      with an event of the stream it listens to.  [Listen] holds the
      handlers of ['data'], ['end'] and ['error'] and the array the
      ['data'] handler pushes to. *)
Inductive Async (A : Type) : Type :=
| Ret (a : A)
| Throw (e : Js.Thrown)
| Read (k : Service -> Async A)
| Modify (f : Service -> Service) (k : Async A)
| Log (entry : LogEntry) (k : Async A)
| Env (k : World -> Async A)
| CreateReadStream (src : Source) (k : Async A)
| Tick (k : Async A)
| AwaitList (Bucket Prefix : string)
    (k : Js.Settled ListObjectsV2Output -> Async A)
| AwaitUpdatePrice (id : option string) (price : Js.Number)
    (k : Js.Settled bool -> Async A)
| Listen (src : Source) (updates : list PriceUpdate)
    (onData : list PriceUpdate -> Row -> Z -> list PriceUpdate)
    (onEnd : list PriceUpdate -> Async A)
    (onError : Js.Thrown -> Async A).

Arguments Ret {A} a.
Arguments Throw {A} e.
Arguments Read {A} k.
Arguments Modify {A} f k.
Arguments Log {A} entry k.
Arguments Env {A} k.
Arguments CreateReadStream {A} src k.
Arguments Tick {A} k.
Arguments AwaitList {A} Bucket Prefix k.
Arguments AwaitUpdatePrice {A} id price k.
Arguments Listen {A} src updates onData onEnd onError.

(** Runs [m] and goes on with [onReturn] when it returns, with [onThrow]
    when it throws. *)
Fixpoint andThen {A B : Type} (m : Async A)
    (onReturn : A -> Async B) (onThrow : Js.Thrown -> Async B) : Async B :=
  match m with
  | Ret a => onReturn a
  | Throw e => onThrow e
  | Read k => Read (fun this => andThen (k this) onReturn onThrow)
  | Modify f k => Modify f (andThen k onReturn onThrow)
  | Log entry k => Log entry (andThen k onReturn onThrow)
  | Env k => Env (fun w => andThen (k w) onReturn onThrow)
  | CreateReadStream src k => CreateReadStream src (andThen k onReturn onThrow)
  | Tick k => Tick (andThen k onReturn onThrow)
  | AwaitList b p k => AwaitList b p (fun r => andThen (k r) onReturn onThrow)
  | AwaitUpdatePrice i p k =>
      AwaitUpdatePrice i p (fun r => andThen (k r) onReturn onThrow)
  | Listen src updates onData onEnd onError =>
      Listen src updates onData
        (fun us => andThen (onEnd us) onReturn onThrow)
        (fun e => andThen (onError e) onReturn onThrow)
  end.

(** Sequencing: a statement after another; an exception skips the rest. *)
Definition bind {A B : Type} (m : Async A) (k : A -> Async B) : Async B :=
  andThen m k Throw.

Notation "x <- m ;; k" := (bind m (fun x => k))
  (at level 61, m at next level, right associativity).
Notation "m ;; k" := (bind m (fun _ => k))
  (at level 61, right associativity).

(** [try { body } catch (error) { handler error }]. *)
Definition tryCatch {A : Type} (body : Async A)
    (handler : Js.Thrown -> Async A) : Async A :=
  andThen body Ret handler.

(** [try { body } finally { finalizer }]: the finalizer runs on both ways
    out, and the way out is kept unless the finalizer throws. *)
Definition tryFinally {A : Type} (body : Async A)
    (finalizer : Async unit) : Async A :=
  andThen body
    (fun a => finalizer ;; Ret a)
    (fun e => finalizer ;; Throw e).

(** [await promise], where the promise is the call of an [async] function
    (or a [new Promise]) whose body is [m]: the body runs up to its first
    suspension point within the caller's turn, and once it has settled the
    caller goes on in a later turn of the event loop. *)
Definition await {A : Type} (m : Async A) : Async A :=
  andThen m (fun a => Tick (Ret a)) (fun e => Tick (Throw e)).

Definition logger_info (msg : string) : Async unit :=
  Log {| level := Info; message := msg; meta := None |} (Ret tt).

Definition logger_warn (msg : string) : Async unit :=
  Log {| level := Warn; message := msg; meta := None |} (Ret tt).

Definition logger_error (msg : string) : Async unit :=
  Log {| level := Error; message := msg; meta := None |} (Ret tt).

Definition logger_error_with (msg detail : string) : Async unit :=
  Log {| level := Error; message := msg; meta := Some detail |} (Ret tt).

(** [this.s3.listObjectsV2(params).promise()], awaited. *)
Definition s3_listObjectsV2 (Bucket Prefix : string)
  : Async ListObjectsV2Output :=
  AwaitList Bucket Prefix
    (fun r => match r with
              | Js.Fulfilled out => Ret out
              | Js.Rejected e => Throw e
              end).

(** [logger.logError(error, context)] of services/logger.ts: an entry
    ['Application Error'] with the message of the error (a thrown value
    that is not an [Error] has none). *)
Definition logger_logError (e : Js.Thrown) : Async unit :=
  match e with
  | Js.ErrorObj msg => logger_error_with "Application Error" msg
  | Js.NonError _ => logger_error "Application Error"
  end.

(** [VehicleRepository.updatePrice(id, price)] of
    repositories/vehicleRepository.ts, the connection and the UPDATE
    statement as one request: whether a vehicle was updated ([null] when
    none was), a failure of the query being logged and answered with
    [null] too. *)
Definition updatePrice (id : option string) (price : Js.Number)
  : Async bool :=
  AwaitUpdatePrice id price
    (fun r => match r with
              | Js.Fulfilled found => Ret found
              | Js.Rejected e =>
                  logger_logError e ;;
                  Ret false
              end).

(** [createReadStream()] of an S3 object or of a local file. *)
Definition createReadStream (src : Source) : Async Source :=
  CreateReadStream src (Ret src).

(** A string used as a condition: [undefined] and the empty string are
    falsy. *)
Definition truthy (value : option string) : option string :=
  match value with
  | Some EmptyString => None
  | other => other
  end.

(** ** PriceProcessorService *)

(** [obj.LastModified?.getTime() || 0]. *)
Definition getTimeOr0 (obj : S3Object) : Z :=
  match LastModified obj with
  | Some t => t
  | None => 0%Z
  end.

(** The comparator of the sort in [processFromS3]:
    [(a, b) => (b.LastModified?.getTime() || 0) - (a.LastModified?.getTime() || 0)]. *)
Definition byLastModifiedDesc (a b : S3Object) : Z :=
  (getTimeOr0 b - getTimeOr0 a)%Z.

(** [obj => obj.Key?.endsWith('.csv')], as a condition. *)
Definition isCsv (obj : S3Object) : bool :=
  match Key obj with
  | Some key => Js.endsWith key ".csv"
  | None => false
  end.

(** [listResult.Contents.filter(...).sort(...)[0]] *)
Definition latestFile (contents : list S3Object) : option S3Object :=
  hd_error (Js.sort byLastModifiedDesc (filter isCsv contents)).

Definition processUpdatesConcurrently (updates : list PriceUpdate)
  : Async unit :=
  if (List.length updates =? 0)%nat then
    logger_info "No price updates to process" ;;
    Ret tt
  else
    logger_info "Price updates processed successfully".

(** The ['data'] handler of [processCSVStream], with the array it pushes
    to and the value of [new Date()] when the row arrives. *)
Definition onDataRow (updates : list PriceUpdate) (row : Row) (date : Z)
  : list PriceUpdate :=
  let update :=
    {| vehicleId := vehicle_id row;
       newPrice := Js.parseFloatOf (new_price row);
       timestamp := date |} in
  (updates ++ [update])%list.

(** The ['end'] handler of [processCSVStream]: [resolve()] once
    [processUpdatesConcurrently] is through, [reject] with what it threw
    otherwise. *)
Definition onStreamEnd (updates : list PriceUpdate) : Async unit :=
  tryCatch
    (await (processUpdatesConcurrently updates) ;;
     Ret tt)
    (fun error =>
       if Js.instanceofError error then Throw error
       else Throw (Js.ErrorObj "Unknown error during CSV processing")).

(** The ['error'] handler of [processCSVStream]: [reject(error)]. *)
Definition onStreamError (error : Js.Thrown) : Async unit :=
  Throw error.

(** [processCSVStream]: a promise that the three handlers settle.  The
    events are those of the stream the handlers are attached to, the csv
    parser the source is piped into.  [pipe] does not forward the errors
    of the source: a failure of the file or S3 stream itself is no event
    of the parser, no handler receives it and this promise does not
    settle then; such a failure is not among the events below. *)
Definition processCSVStream (stream : Source) : Async unit :=
  Listen stream [] onDataRow onStreamEnd onStreamError.

Definition processFromS3 : Async unit :=
  Env (fun env =>
  match truthy (AWS_S3_BUCKET env) with
  | None =>
      logger_warn "S3 bucket not configured, skipping S3 processing" ;;
      Ret tt
  | Some bucketName =>
      tryCatch
        (listResult <- s3_listObjectsV2 bucketName "price-updates/" ;;
         match Contents listResult with
         | None | Some [] =>
             logger_info "No CSV files found in S3 bucket" ;;
             Ret tt
         | Some contents =>
             match latestFile contents with
             | None =>
                 logger_info "No CSV files found in S3 bucket" ;;
                 Ret tt
             | Some obj =>
                 match truthy (Key obj) with
                 | None =>
                     logger_info "No CSV files found in S3 bucket" ;;
                     Ret tt
                 | Some key =>
                     logger_info ("Processing CSV file: " ++ key) ;;
                     fileStream <- createReadStream (S3Stream bucketName key) ;;
                     await (processCSVStream fileStream) ;;
                     logger_info ("Successfully processed " ++ key)
                 end
             end
         end)
        (fun error =>
           match error with
           | Js.ErrorObj msg =>
               logger_error_with "Failed to process S3 CSV" msg
           | Js.NonError _ =>
               logger_error_with "Failed to process S3 CSV" "Unknown error"
           end ;;
           Throw error)
  end).

(** [path.join(__dirname, '../../data/price-updates.csv')], relative to the
    application directory. *)
Definition localPath : string := "data/price-updates.csv".

Definition processFromLocal : Async unit :=
  tryCatch
    (Env (fun env =>
     if negb (localCsvExists env) then
       logger_info "No local CSV file found" ;;
       Ret tt
     else
       logger_info "Processing local CSV file" ;;
       fileStream <- createReadStream (LocalStream localPath) ;;
       await (processCSVStream fileStream) ;;
       logger_info "Successfully processed local CSV file"))
    (fun error =>
       match error with
       | Js.ErrorObj msg =>
           logger_error_with "Failed to process local CSV" msg
       | Js.NonError _ =>
           logger_error_with "Failed to process local CSV" "Unknown error"
       end ;;
       Throw error).

Definition startProcessing : Async unit :=
  Read (fun this =>
  if processingLock this then
    logger_warn "Price processing already in progress" ;;
    Ret tt
  else
    Modify (set_processingLock true) (
    Modify (set_isProcessing true) (
    tryFinally
      (tryCatch
         (logger_info "Starting price processing from S3 CSV" ;;
          await processFromS3 ;;
          await processFromLocal ;;
          logger_info "Price processing completed successfully")
         (fun error =>
            match error with
            | Js.ErrorObj msg => logger_error msg
            | Js.NonError text => logger_error text
            end))
      (Modify (set_processingLock false) (
       Modify (set_isProcessing false) (
       Ret tt)))))).

Record ProcessingStatus : Type := {
  status_isProcessing : bool;
  queueLength : nat
}.

Definition getProcessingStatus (this : Service) : ProcessingStatus :=
  {| status_isProcessing := isProcessing this;
     queueLength := List.length (processingQueue this) |}.

Definition isCurrentlyProcessing (this : Service) : bool :=
  isProcessing this.

(** ** The event loop *)

(** How the promise of a call ended. *)
Inductive Outcome : Type :=
| Resolved
| RejectedWith (e : Js.Thrown).

(** The process: the world around it, the service instance, what was
    logged, the requests that left the process, the calls of
    [startProcessing] that are suspended, and how the finished ones
    ended. *)
Record System : Type := {
  world : World;
  service : Service;
  logs : list LogEntry;
  requests : list IoRequest;
  pool : list (Async unit);
  finished : list Outcome
}.

Definition with_service (f : Service -> Service) (sys : System) : System :=
  {| world := world sys; service := f (service sys); logs := logs sys;
     requests := requests sys; pool := pool sys; finished := finished sys |}.

Definition with_log (entry : LogEntry) (sys : System) : System :=
  {| world := world sys; service := service sys;
     logs := (logs sys ++ [entry])%list;
     requests := requests sys; pool := pool sys; finished := finished sys |}.

Definition with_request (r : IoRequest) (sys : System) : System :=
  {| world := world sys; service := service sys; logs := logs sys;
     requests := (requests sys ++ [r])%list;
     pool := pool sys; finished := finished sys |}.

Definition with_world (w : World) (sys : System) : System :=
  {| world := w; service := service sys; logs := logs sys;
     requests := requests sys; pool := pool sys; finished := finished sys |}.

Definition with_pool (p : list (Async unit)) (sys : System) : System :=
  {| world := world sys; service := service sys; logs := logs sys;
     requests := requests sys; pool := p; finished := finished sys |}.

Definition with_finished (o : Outcome) (sys : System) : System :=
  {| world := world sys; service := service sys; logs := logs sys;
     requests := requests sys; pool := pool sys;
     finished := (finished sys ++ [o])%list |}.

(** One turn: runs [m] without interruption up to its next suspension
    point or to its end, and gives what is left of it.  A request is sent
    when the code reaches the point that waits for its answer. *)
Fixpoint exec {A : Type} (m : Async A) (sys : System) : System * Async A :=
  match m with
  | Read k => exec (k (service sys)) sys
  | Modify f k => exec k (with_service f sys)
  | Log entry k => exec k (with_log entry sys)
  | Env k => exec (k (world sys)) sys
  | CreateReadStream src k => exec k (with_request (OpenStream src) sys)
  | AwaitList b p _ => (with_request (ListObjects b p) sys, m)
  | AwaitUpdatePrice i p _ => (with_request (UpdatePrice i p) sys, m)
  | Ret _ | Throw _ | Tick _ | Listen _ _ _ _ _ => (sys, m)
  end.

(** What the event loop can wake a suspended call with. *)
Inductive Wake : Type :=
| WTick
| WList (r : Js.Settled ListObjectsV2Output)
| WUpdated (r : Js.Settled bool)
| WData (row : Row)
| WEnd
| WError (e : Js.Thrown).

(** The code a suspended call goes on with when it is woken with [ev]
    ([date] is the clock at that moment); nothing when the call does not
    wait for that event. *)
Definition resume {A : Type} (t : Async A) (ev : Wake) (date : Z)
  : option (Async A) :=
  match t, ev with
  | Tick k, WTick => Some k
  | AwaitList _ _ k, WList r => Some (k r)
  | AwaitUpdatePrice _ _ k, WUpdated r => Some (k r)
  | Listen src updates onData onEnd onError, WData row =>
      Some (Listen src (onData updates row date) onData onEnd onError)
  | Listen _ updates _ onEnd _, WEnd => Some (onEnd updates)
  | Listen _ _ _ _ onError, WError e => Some (onError e)
  | _, _ => None
  end.

Fixpoint replaceAt {A : Type} (i : nat) (x : option A) (l : list A) : list A :=
  match l, i with
  | [], _ => []
  | _ :: rest, O => match x with Some y => y :: rest | None => rest end
  | y :: rest, S j => y :: replaceAt j x rest
  end.

(** What is left of a call after a turn: [Some] suspended code, or the
    outcome of its promise. *)
Definition leftover (t : Async unit) : option (Async unit) * option Outcome :=
  match t with
  | Ret _ => (None, Some Resolved)
  | Throw e => (None, Some (RejectedWith e))
  | _ => (Some t, None)
  end.

Definition noteOutcome (o : option Outcome) (sys : System) : System :=
  match o with
  | Some out => with_finished out sys
  | None => sys
  end.

(** A call [m()] made from anywhere: its first turn runs at once. *)
Definition invoke (m : Async unit) (sys : System) : System :=
  let '(sys', t) := exec m sys in
  let '(susp, out) := leftover t in
  let sys'' := noteOutcome out sys' in
  match susp with
  | Some t' => with_pool (pool sys'' ++ [t'])%list sys''
  | None => sys''
  end.

(** The [i]-th suspended call is woken with [ev]. *)
Definition wake (i : nat) (ev : Wake) (sys : System) : option System :=
  match nth_error (pool sys) i with
  | None => None
  | Some t =>
      match resume t ev (now (world sys)) with
      | None => None
      | Some k =>
          let '(sys', t') := exec k sys in
          let '(susp, out) := leftover t' in
          let sys'' := noteOutcome out sys' in
          Some (with_pool (replaceAt i susp (pool sys'')) sys'')
      end
  end.

(** ** The callers of the service *)

Record HttpResponse : Type := {
  status : nat;
  success : bool;
  body : string
}.

(** [HealthController.triggerPriceProcessing], once the service module is
    imported: [res.status(409).json(...)] when a run is in progress,
    otherwise [startProcessing()] is called without being awaited and
    [res.json(...)] answers with the default status 200. *)
Definition triggerPriceProcessing (sys : System) : HttpResponse * System :=
  if isCurrentlyProcessing (service sys) then
    ({| status := 409; success := false;
        body := "Price processing already in progress" |}, sys)
  else
    let sys' := invoke startProcessing sys in
    ({| status := 200; success := true;
        body := "Price processing started" |}, sys').

(** The callback of [cron.schedule] in index.ts; nothing follows its
    [await]. *)
Definition scheduledTick (sys : System) : System :=
  if negb (isCurrentlyProcessing (service sys)) then
    invoke startProcessing
      (with_log {| level := Info;
                   message := "Starting scheduled price processing";
                   meta := None |} sys)
  else sys.

(** What can happen next in the process. *)
Inductive Label : Type :=
| LCall
| LTrigger
| LCron
| LWorld (w : World)
| LWake (i : nat) (ev : Wake).

Definition step (sys : System) (l : Label) : option System :=
  match l with
  | LCall => Some (invoke startProcessing sys)
  | LTrigger => Some (snd (triggerPriceProcessing sys))
  | LCron => Some (scheduledTick sys)
  | LWorld w => Some (with_world w sys)
  | LWake i ev => wake i ev sys
  end.

Fixpoint run (sys : System) (trace : list Label) : option System :=
  match trace with
  | [] => Some sys
  | l :: rest =>
      match step sys l with
      | Some sys' => run sys' rest
      | None => None
      end
  end.

(** The service as its constructor leaves it, in a process that has done
    nothing yet. *)
Definition newService : Service :=
  {| isProcessing := false; processingQueue := []; processingLock := false |}.

Definition boot (w : World) : System :=
  {| world := w; service := newService; logs := []; requests := [];
     pool := []; finished := [] |}.

Definition Reachable (sys : System) : Prop :=
  exists w trace, run (boot w) trace = Some sys.

(** ** The single-flight guard *)

(** The service while a run is in progress. *)
Definition busy : Service :=
  {| isProcessing := true; processingQueue := []; processingLock := true |}.

(** [guarded m this]: started with the fields [this], the code [m] holds
    the guard wherever it waits (the fields are those of [busy] at every
    suspension point), never waits for a price update, never ends by an
    exception, and ends with the fields of [newService]. *)
Fixpoint guarded {A : Type} (m : Async A) (this : Service) : Prop :=
  match m with
  | Ret _ => this = newService
  | Throw _ => False
  | Read k => guarded (k this) this
  | Modify f k => guarded k (f this)
  | Log _ k => guarded k this
  | Env k => forall w, guarded (k w) this
  | CreateReadStream _ k => guarded k this
  | Tick k => this = busy /\ guarded k this
  | AwaitList _ _ k => this = busy /\ forall r, guarded (k r) this
  | AwaitUpdatePrice _ _ _ => False
  | Listen _ _ _ onEnd onError =>
      this = busy /\ (forall us, guarded (onEnd us) this)
      /\ (forall e, guarded (onError e) this)
  end.

(** A call that waits for the event loop. *)
Definition suspended {A : Type} (t : Async A) : Prop :=
  match t with
  | Tick _ | AwaitList _ _ _ | AwaitUpdatePrice _ _ _ | Listen _ _ _ _ _ =>
      True
  | _ => False
  end.

Definition isUpdatePrice (r : IoRequest) : bool :=
  match r with
  | UpdatePrice _ _ => true
  | _ => false
  end.

(** The price updates sent to vehicle storage so far. *)
Definition appliedUpdates (sys : System) : list IoRequest :=
  filter isUpdatePrice (requests sys).

Definition alreadyInProgress : LogEntry :=
  {| level := Warn; message := "Price processing already in progress";
     meta := None |}.

(** What holds between any two turns of the event loop: either no run is
    in progress and the service is as constructed, or exactly one is, it
    is suspended and holds the guard; no promise was rejected and no price
    update was sent. *)
Record Inv (sys : System) : Prop := {
  inv_state :
    (service sys = newService /\ pool sys = [])
    \/ (service sys = busy
        /\ exists t, pool sys = [t] /\ suspended t /\ guarded t busy);
  inv_finished : Forall (eq Resolved) (finished sys);
  inv_requests : appliedUpdates sys = []
}.

(** The record the ['data'] handler makes of a row that arrives at [date]. *)
Definition recordOf (date : Z) (row : Row) : PriceUpdate :=
  {| vehicleId := vehicle_id row;
     newPrice := Js.parseFloatOf (new_price row);
     timestamp := date |}.

(** The rows of a file arriving one after the other at the [i]-th
    suspended call. *)
Definition dataEvents (i : nat) (rows : list Row) : list Label :=
  map (fun row => LWake i (WData row)) rows.

(** [obj] is the first, in the order of [objs], of the objects with the
    greatest modification time. *)
Definition FirstNewest (objs : list S3Object) (obj : S3Object) : Prop :=
  exists before after,
    objs = (before ++ obj :: after)%list
    /\ Forall (fun o => (getTimeOr0 o < getTimeOr0 obj)%Z) before
    /\ Forall (fun o => (getTimeOr0 o <= getTimeOr0 obj)%Z) after.

(** The stream [processFromS3] opens once the listing is there. *)
Definition selectedStream (bucketName : string)
    (listing : Js.Settled ListObjectsV2Output) : list IoRequest :=
  match listing with
  | Js.Fulfilled out =>
      match Contents out with
      | Some contents =>
          match latestFile contents with
          | Some obj =>
              match truthy (Key obj) with
              | Some key => [OpenStream (S3Stream bucketName key)]
              | None => []
              end
          | None => []
          end
      | None => []
      end
  | Js.Rejected _ => []
  end.

Definition startingEntry : LogEntry :=
  {| level := Info; message := "Starting price processing from S3 CSV";
     meta := None |}.

Definition conflictResponse : HttpResponse :=
  {| status := 409; success := false;
     body := "Price processing already in progress" |}.

Definition startedResponse : HttpResponse :=
  {| status := 200; success := true; body := "Price processing started" |}.

(** *** Sample inputs *)

Definition sampleWorld : World :=
  {| AWS_S3_BUCKET := Some "vehicle-feeds";
     localCsvExists := true;
     now := 1700000000000%Z |}.

(** The same process with no bucket configured: only the local file is
    read. *)
Definition localOnlyWorld : World :=
  {| AWS_S3_BUCKET := None;
     localCsvExists := true;
     now := 1700000000000%Z |}.

(** The same bucket seen a minute later by a process without a local
    file. *)
Definition laterWorld : World :=
  {| AWS_S3_BUCKET := Some "vehicle-feeds";
     localCsvExists := false;
     now := 1700000060000%Z |}.

Definition feedRow (id price : string) : Row :=
  {| vehicle_id := Some id; new_price := Some price |}.

Definition remoteFeed : list Row :=
  [feedRow "v1" "18500.00"; feedRow "v2" "16900"].

Definition localFeed : list Row :=
  [feedRow "v3" "19900.50"].

(** Five rows, the third with a price that is not a number. *)
Definition corruptedFeed : list Row :=
  [feedRow "v1" "18500.00"; feedRow "v2" "16900"; feedRow "v3" "abc";
   feedRow "v4" "14000"; feedRow "v5" "32000"].

Definition negativeRow : Row := feedRow "v1" "-5".

Definition remoteListing : ListObjectsV2Output :=
  {| Contents :=
       Some [ {| Key := Some "price-updates/";
                 LastModified := Some 1699999000000%Z |};
              {| Key := Some "price-updates/2023-11-13.csv";
                 LastModified := Some 1699900000000%Z |};
              {| Key := Some "price-updates/2023-11-14-a.csv";
                 LastModified := Some 1699990000000%Z |};
              {| Key := Some "price-updates/2023-11-14-b.csv";
                 LastModified := Some 1699990000000%Z |} ] |}.

(** A run in which the remote feed has the rows of [remoteFeed] and the
    local file those of [localFeed]. *)
Definition bothSourcesTrace : list Label :=
  ([LCall; LWake 0 (WList (Js.Fulfilled remoteListing))]
   ++ dataEvents 0 remoteFeed
   ++ [LWake 0 WEnd; LWake 0 WTick; LWake 0 WTick; LWake 0 WTick]
   ++ dataEvents 0 localFeed
   ++ [LWake 0 WEnd; LWake 0 WTick; LWake 0 WTick; LWake 0 WTick])%list.

(** A run in which listing the bucket fails. *)
Definition remoteDownTrace : list Label :=
  [LCall;
   LWake 0 (WList (Js.Rejected (Js.ErrorObj "connect ETIMEDOUT")));
   LWake 0 WTick].

(** A run that reads [corruptedFeed] from the local file. *)
Definition corruptedLocalTrace : list Label :=
  ([LCall; LWake 0 WTick]
   ++ dataEvents 0 corruptedFeed
   ++ [LWake 0 WEnd; LWake 0 WTick; LWake 0 WTick; LWake 0 WTick])%list.

(** The state a trace leads to (the starting state when the trace cannot be
    followed). *)
Definition after (sys : System) (trace : list Label) : System :=
  match run sys trace with
  | Some sys' => sys'
  | None => sys
  end.

(** The entries of level [error] in the log. *)
Definition errorsLogged (sys : System) : list LogEntry :=
  filter (fun entry => match level entry with Error => true | _ => false end)
    (logs sys).

(** ** More about the run: log entries *)

Definition scheduledEntry : LogEntry :=
  {| level := Info; message := "Starting scheduled price processing";
     meta := None |}.

Definition bucketSkippedEntry : LogEntry :=
  {| level := Warn;
     message := "S3 bucket not configured, skipping S3 processing";
     meta := None |}.

Definition infoEntry (msg : string) : LogEntry :=
  {| level := Info; message := msg; meta := None |}.

(** What [processUpdatesConcurrently] logs for a batch. *)
Definition batchEntry (updates : list PriceUpdate) : LogEntry :=
  match updates with
  | [] => infoEntry "No price updates to process"
  | _ :: _ => infoEntry "Price updates processed successfully"
  end.

Definition localFailureEntry (e : Js.Thrown) : LogEntry :=
  {| level := Error; message := "Failed to process local CSV";
     meta := Some match e with
                  | Js.ErrorObj msg => msg
                  | Js.NonError _ => "Unknown error"
                  end |}.

Definition runFailureEntry (e : Js.Thrown) : LogEntry :=
  {| level := Error;
     message := match e with
                | Js.ErrorObj msg => msg
                | Js.NonError text => text
                end;
     meta := None |}.

(** The ['end'] handler of a listener hands the array it is given to
    [processUpdatesConcurrently]: what its first turn does to the process
    is what that call does. *)
Definition HandsOverBatch (onEnd : list PriceUpdate -> Async unit) : Prop :=
  forall updates sys,
    fst (exec (onEnd updates) sys)
    = fst (exec (processUpdatesConcurrently updates) sys).

(** ** One call on its own *)

(** One call followed on its own: the state and what is left of the call
    once it was woken with the events [evs], one per turn, [st] being the
    state and what is left of it after its current turn.  Nothing when the
    call does not wait for one of the events. *)
Fixpoint afterTurns {A : Type} (st : System * Async A) (evs : list Wake)
  : option (System * Async A) :=
  match evs with
  | [] => Some st
  | ev :: rest =>
      match resume (snd st) ev (now (world (fst st))) with
      | Some k => afterTurns (exec k (fst st)) rest
      | None => None
      end
  end.

(** The call [m()] and the turns that follow it. *)
Definition turns {A : Type} (m : Async A) (evs : list Wake) (sys : System)
  : option (System * Async A) :=
  afterTurns (exec m sys) evs.

(** What the event loop keeps of a call after a turn, as in [invoke]. *)
Definition park (st : System * Async unit) : System :=
  let '(sys', t) := st in
  let '(susp, out) := leftover t in
  let sys'' := noteOutcome out sys' in
  match susp with
  | Some t' => with_pool (pool sys'' ++ [t'])%list sys''
  | None => sys''
  end.

(** ** VehicleRepository (repositories/vehicleRepository.ts)

    The repository talks to PostgreSQL through a pooled client.  Its
    methods are written as trees of the operations on that client
    ([Db]), run against the answers of the database ([runDb]). *)

Module JsNumber.

(** A number used as a condition: 0, -0 and NaN are falsy. *)
Definition truthy (x : Js.Number) : bool :=
  match x with
  | Js.NaN => false
  | Js.Infinity _ => true
  | Js.Finite _ m _ => negb (m =? 0)%N
  end.

(** [x < 0]: false for NaN and for -0. *)
Definition ltZero (x : Js.Number) : bool :=
  match x with
  | Js.NaN => false
  | Js.Infinity neg => neg
  | Js.Finite neg m _ => neg && negb (m =? 0)%N
  end.

Definition zero : Js.Number := Js.Finite false 0 0.

(** [String(n)] for a non-negative integer. *)
Definition toString (n : nat) : string :=
  NilZero.string_of_uint (Nat.to_uint n).

(** The value of [c] as a digit of the given radix (10 or 16). *)
Definition digitOf (radix : N) (c : ascii) : option N :=
  let n := nat_of_ascii c in
  let v :=
    if ((48 <=? n) && (n <=? 57))%nat then Some (N.of_nat (n - 48))
    else if ((97 <=? n) && (n <=? 122))%nat then Some (N.of_nat (n - 87))
    else if ((65 <=? n) && (n <=? 90))%nat then Some (N.of_nat (n - 55))
    else None in
  match v with
  | Some d => if (d <? radix)%N then Some d else None
  | None => None
  end.

Fixpoint readRadix (radix : N) (s : string) (acc : N) (count : nat)
  : N * nat :=
  match s with
  | String c rest =>
      match digitOf radix c with
      | Some d => readRadix radix rest (acc * radix + d)%N (S count)
      | None => (acc, count)
      end
  | EmptyString => (acc, count)
  end.

(** [parseInt(string)] with no radix: white space, a sign, [0x] or [0X]
    for radix 16, then the longest run of digits; NaN when there is
    none.  As for [Js.parseFloat], the integer read is kept as it is. *)
Definition parseInt (input : string) : Js.Number :=
  let '(neg, s1) := Js.readSign (Js.trimStart input) in
  let '(radix, s2) :=
    match s1 with
    | String "0" (String x rest) =>
        if (Ascii.eqb x "x" || Ascii.eqb x "X")%bool then (16%N, rest)
        else (10%N, s1)
    | _ => (10%N, s1)
    end in
  let '(v, n) := readRadix radix s2 0%N 0 in
  if (n =? 0)%nat then Js.NaN else Js.Finite neg v 0.

Definition parseIntOf (value : option string) : Js.Number :=
  match value with
  | Some s => parseInt s
  | None => parseInt "undefined"
  end.

End JsNumber.

Module VehicleRepository.

(** A parameter of a query. *)
Inductive SqlValue : Type :=
| SqlText (s : string)
| SqlNumber (n : Js.Number)
| SqlNull.

(** The value of a JSONB column as the driver returns it, that is, parsed
    already, seen through the two things the repository does with it:
    using it as a condition, and giving it to [JSON.parse], which reads
    the text [String(value)].  An object arrives as an object, whose text
    is [[object Object]]; the empty array is truthy and its text is
    empty; [null], [false], [0] and the empty string are falsy, as is
    [undefined] for a column the row does not have. *)
Inductive ColumnValue : Type :=
| Falsy
| Truthy (text : string).

(** A row as the driver returns it: the columns of [vehicles] the
    repository reads, and the [count] column of the counting query. *)
Record DbRow : Type := {
  row_id : string;
  row_brand : string;
  row_model : string;
  row_year : Js.Number;
  row_mileage : Js.Number;
  row_price : option string;
  row_description : option string;
  row_main_photo : option string;
  row_technical_specs : ColumnValue;
  row_status : string;
  row_created_at : Z;
  row_updated_at : Z;
  row_count : option string
}.

Record QueryResult : Type := {
  rows : list DbRow;
  rowCount : option nat
}.

Inductive Db (A : Type) : Type :=
| DbRet (a : A)
| DbThrow (e : Js.Thrown)
| Connect (k : Js.Settled unit -> Db A)
| Query (text : string) (values : list SqlValue)
    (k : Js.Settled QueryResult -> Db A)
| Release (k : Db A)
| LogError (e : Js.Thrown) (operation : string) (vehicleId : option string)
    (k : Db A).

Arguments DbRet {A} a.
Arguments DbThrow {A} e.
Arguments Connect {A} k.
Arguments Query {A} text values k.
Arguments Release {A} k.
Arguments LogError {A} e operation vehicleId k.

Fixpoint dbAndThen {A B : Type} (m : Db A)
    (onReturn : A -> Db B) (onThrow : Js.Thrown -> Db B) : Db B :=
  match m with
  | DbRet a => onReturn a
  | DbThrow e => onThrow e
  | Connect k => Connect (fun c => dbAndThen (k c) onReturn onThrow)
  | Query text values k =>
      Query text values (fun r => dbAndThen (k r) onReturn onThrow)
  | Release k => Release (dbAndThen k onReturn onThrow)
  | LogError e op id k => LogError e op id (dbAndThen k onReturn onThrow)
  end.

Definition dbBind {A B : Type} (m : Db A) (k : A -> Db B) : Db B :=
  dbAndThen m k DbThrow.

Notation "x <-- m ;; k" := (dbBind m (fun x => k))
  (at level 61, m at next level, right associativity).

Definition dbTryCatch {A : Type} (body : Db A)
    (handler : Js.Thrown -> Db A) : Db A :=
  dbAndThen body DbRet handler.

Definition dbTryFinally {A : Type} (body : Db A) (finalizer : Db unit)
  : Db A :=
  dbAndThen body
    (fun a => _ <-- finalizer ;; DbRet a)
    (fun e => _ <-- finalizer ;; DbThrow e).

(** [await pool.connect()]. *)
Definition pool_connect : Db unit :=
  Connect (fun c => match c with
                    | Js.Fulfilled _ => DbRet tt
                    | Js.Rejected e => DbThrow e
                    end).

(** [await client.query(text, values)]. *)
Definition client_query (text : string) (values : list SqlValue)
  : Db QueryResult :=
  Query text values (fun r => match r with
                              | Js.Fulfilled result => DbRet result
                              | Js.Rejected e => DbThrow e
                              end).

Definition client_release : Db unit := Release (DbRet tt).

(** [logger.logError(error, { operation, vehicleId })]. *)
Definition logger_logError (e : Js.Thrown) (operation : string)
    (vehicleId : option string) : Db unit :=
  LogError e operation vehicleId (DbRet tt).

(** A synchronous computation that may throw. *)
Definition lift {A : Type} (r : Js.Settled A) : Db A :=
  match r with
  | Js.Fulfilled a => DbRet a
  | Js.Rejected e => DbThrow e
  end.

Definition nl : string := String (ascii_of_nat 10) EmptyString.

Definition star : string := String (ascii_of_nat 42) EmptyString.

(** A template literal written over several lines: a line break before
    every line, and the indentation of the closing back quote at the
    end. *)
Definition template (lines : list string) : string :=
  String.concat EmptyString (map (fun line => nl ++ line) lines)
  ++ nl ++ "      ".

Definition typeErrorUndefinedRow (property : string) : Js.Thrown :=
  Js.ErrorObj
    ("Cannot read properties of undefined (reading '" ++ property ++ "')").

Section WithJson.

(** What [JSON.parse] gives, and the two functions of [JSON];
    [JSON.parse] throws on a text that is not JSON. *)
Variable Json : Type.
Variable JSON_parse : string -> Js.Settled Json.
Variable JSON_stringify : Json -> string.

(** [Math.ceil(total / limit)]. *)
Variable Math_ceil_div : Js.Number -> Js.Number -> Js.Number.

Record Vehicle : Type := {
  v_id : string;
  v_brand : string;
  v_model : string;
  v_year : Js.Number;
  v_mileage : Js.Number;
  v_price : Js.Number;
  v_description : option string;
  v_mainPhoto : option string;
  v_technicalSpecs : option Json;
  v_status : string;
  v_createdAt : Z;
  v_updatedAt : Z
}.

Definition mapRowToVehicle (row : DbRow) : Js.Settled Vehicle :=
  let make specs :=
    {| v_id := row_id row;
       v_brand := row_brand row;
       v_model := row_model row;
       v_year := row_year row;
       v_mileage := row_mileage row;
       v_price := Js.parseFloatOf (row_price row);
       v_description := row_description row;
       v_mainPhoto := row_main_photo row;
       v_technicalSpecs := specs;
       v_status := row_status row;
       v_createdAt := row_created_at row;
       v_updatedAt := row_updated_at row |} in
  match row_technical_specs row with
  | Falsy => Js.Fulfilled (make None)
  | Truthy text =>
      match JSON_parse text with
      | Js.Fulfilled specs => Js.Fulfilled (make (Some specs))
      | Js.Rejected e => Js.Rejected e
      end
  end.

(** [this.mapRowToVehicle(result.rows[0])]; reading a column of a row
    that is not there is a [TypeError]. *)
Definition mapFirstRow (result : QueryResult) : Db Vehicle :=
  match rows result with
  | [] => DbThrow (typeErrorUndefinedRow "id")
  | row :: _ => lift (mapRowToVehicle row)
  end.

(** [if (result.rows.length === 0) return null; return
    this.mapRowToVehicle(result.rows[0]);] *)
Definition firstRowOrNull (result : QueryResult) : Db (option Vehicle) :=
  match rows result with
  | [] => DbRet None
  | row :: _ => vehicle <-- lift (mapRowToVehicle row) ;; DbRet (Some vehicle)
  end.

Record CreateVehicleData : Type := {
  c_brand : string;
  c_model : string;
  c_year : Js.Number;
  c_mileage : Js.Number;
  c_price : Js.Number;
  c_description : option string;
  c_mainPhoto : option string;
  c_technicalSpecs : option Json;
  c_status : option string
}.

Definition textOrNull (value : option string) : SqlValue :=
  match truthy value with
  | Some s => SqlText s
  | None => SqlNull
  end.

Definition createSql : string :=
  template
    ["        INSERT INTO vehicles (brand, model, year, mileage, price, description, main_photo, technical_specs, status, created_at, updated_at)";
     "        VALUES ($1, $2, $3, $4, $5, $6, $7, $8, $9, NOW(), NOW())";
     "        RETURNING *"].

Definition create (data : CreateVehicleData) : Db (option Vehicle) :=
  _ <-- pool_connect ;;
  dbTryFinally
    (dbTryCatch
       (let values :=
          [SqlText (c_brand data);
           SqlText (c_model data);
           SqlNumber (c_year data);
           SqlNumber (c_mileage data);
           SqlNumber (c_price data);
           textOrNull (c_description data);
           textOrNull (c_mainPhoto data);
           match c_technicalSpecs data with
           | Some specs => SqlText (JSON_stringify specs)
           | None => SqlNull
           end;
           match truthy (c_status data) with
           | Some s => SqlText s
           | None => SqlText "available"
           end] in
        result <-- client_query createSql values ;;
        vehicle <-- mapFirstRow result ;;
        DbRet (Some vehicle))
       (fun error =>
          _ <-- logger_logError error "create_vehicle" None ;;
          DbRet None))
    client_release.

Definition findById (id : string) : Db (option Vehicle) :=
  _ <-- pool_connect ;;
  dbTryFinally
    (dbTryCatch
       (result <-- client_query
                     "SELECT * FROM vehicles WHERE id = $1 AND deleted_at IS NULL"
                     [SqlText id] ;;
        firstRowOrNull result)
       (fun error =>
          _ <-- logger_logError error "find_vehicle_by_id" (Some id) ;;
          DbRet None))
    client_release.

Record VehicleFilters : Type := {
  f_brand : option string;
  f_model : option string;
  f_yearMin : option Js.Number;
  f_yearMax : option Js.Number;
  f_priceMin : option Js.Number;
  f_priceMax : option Js.Number;
  f_mileageMax : option Js.Number;
  f_status : option string
}.

Record PaginationParams : Type := {
  p_page : Js.Number;
  p_limit : Js.Number;
  p_offset : Js.Number
}.

(** The three variables [findAll] and [update] build their statement
    with: the SQL fragments, the parameters and the number of the next
    placeholder. *)
Record Builder : Type := {
  fragments : list string;
  values : list SqlValue;
  valueIndex : nat
}.

(** [fragments.push(`${sql}$${valueIndex}`); values.push(value);
    valueIndex++] *)
Definition push (sql : string) (value : SqlValue) (b : Builder) : Builder :=
  {| fragments := fragments b ++ [sql ++ "$" ++ JsNumber.toString (valueIndex b)];
     values := values b ++ [value];
     valueIndex := S (valueIndex b) |}.

(** [if (text) { push }] *)
Definition pushIfText (sql : string) (wrap : string -> string)
    (text : option string) (b : Builder) : Builder :=
  match truthy text with
  | Some s => push sql (SqlText (wrap s)) b
  | None => b
  end.

(** [if (number) { push }] *)
Definition pushIfNumber (sql : string) (number : option Js.Number)
    (b : Builder) : Builder :=
  match number with
  | Some n => if JsNumber.truthy n then push sql (SqlNumber n) b else b
  | None => b
  end.

(** The filters of [findAll], applied in the order of the source. *)
Definition applyFilters (filters : VehicleFilters) : Builder :=
  let b0 := {| fragments := ["deleted_at IS NULL"]; values := [];
               valueIndex := 1 |} in
  let b1 := pushIfText "brand ILIKE " (fun s => "%" ++ s ++ "%")
              (f_brand filters) b0 in
  let b2 := pushIfText "model ILIKE " (fun s => "%" ++ s ++ "%")
              (f_model filters) b1 in
  let b3 := pushIfNumber "year >= " (f_yearMin filters) b2 in
  let b4 := pushIfNumber "year <= " (f_yearMax filters) b3 in
  let b5 := pushIfNumber "price >= " (f_priceMin filters) b4 in
  let b6 := pushIfNumber "price <= " (f_priceMax filters) b5 in
  let b7 := pushIfNumber "mileage <= " (f_mileageMax filters) b6 in
  pushIfText "status = " (fun s => s) (f_status filters) b7.

Definition whereClause (b : Builder) : string :=
  String.concat " AND " (fragments b).

Definition countQuery (b : Builder) : string :=
  "SELECT COUNT(" ++ star ++ ") FROM vehicles WHERE " ++ whereClause b.

Definition pageQuery (b : Builder) : string :=
  template
    ["        SELECT * FROM vehicles ";
     "        WHERE " ++ whereClause b;
     "        ORDER BY created_at DESC";
     "        LIMIT $" ++ JsNumber.toString (valueIndex b)
       ++ " OFFSET $" ++ JsNumber.toString (valueIndex b + 1)].

Record VehiclePage : Type := {
  vehicles : list Vehicle;
  total : Js.Number;
  page : Js.Number;
  limit : Js.Number;
  totalPages : Js.Number
}.

(** [result.rows.map(row => this.mapRowToVehicle(row))] *)
Fixpoint mapRows (rs : list DbRow) : Js.Settled (list Vehicle) :=
  match rs with
  | [] => Js.Fulfilled []
  | row :: rest =>
      match mapRowToVehicle row with
      | Js.Rejected e => Js.Rejected e
      | Js.Fulfilled vehicle =>
          match mapRows rest with
          | Js.Rejected e => Js.Rejected e
          | Js.Fulfilled others => Js.Fulfilled (vehicle :: others)
          end
      end
  end.

Definition findAll (filters : VehicleFilters) (pagination : PaginationParams)
  : Db VehiclePage :=
  _ <-- pool_connect ;;
  dbTryFinally
    (dbTryCatch
       (let b := applyFilters filters in
        countResult <-- client_query (countQuery b) (values b) ;;
        count <-- match rows countResult with
                  | [] => DbThrow (typeErrorUndefinedRow "count")
                  | row :: _ => DbRet (row_count row)
                  end ;;
        let total := JsNumber.parseIntOf count in
        result <-- client_query (pageQuery b)
                     (values b ++ [SqlNumber (p_limit pagination);
                                   SqlNumber (p_offset pagination)]) ;;
        vehicles <-- lift (mapRows (rows result)) ;;
        DbRet {| vehicles := vehicles;
                 total := total;
                 page := p_page pagination;
                 limit := p_limit pagination;
                 totalPages := Math_ceil_div total (p_limit pagination) |})
       (fun error =>
          _ <-- logger_logError error "find_all_vehicles" None ;;
          DbRet {| vehicles := [];
                   total := JsNumber.zero;
                   page := p_page pagination;
                   limit := p_limit pagination;
                   totalPages := JsNumber.zero |}))
    client_release.

Record UpdateVehicleData : Type := {
  u_brand : option string;
  u_model : option string;
  u_year : option Js.Number;
  u_mileage : option Js.Number;
  u_price : option Js.Number;
  u_description : option string;
  u_mainPhoto : option string;
  u_technicalSpecs : option Json;
  u_status : option string
}.

(** An update that sets no field. *)
Definition noChange : UpdateVehicleData :=
  {| u_brand := None; u_model := None; u_year := None; u_mileage := None;
     u_price := None; u_description := None; u_mainPhoto := None;
     u_technicalSpecs := None; u_status := None |}.

(** [if (value !== undefined) { push }] *)
Definition pushIfDefined (sql : string) (value : option SqlValue)
    (b : Builder) : Builder :=
  match value with
  | Some v => push sql v b
  | None => b
  end.

(** The assignments of [update], in the order of the source, with
    [updated_at = NOW()] pushed last. *)
Definition applyUpdates (data : UpdateVehicleData) : Builder :=
  let b0 := {| fragments := []; values := []; valueIndex := 1 |} in
  let b1 := pushIfDefined "brand = " (option_map SqlText (u_brand data)) b0 in
  let b2 := pushIfDefined "model = " (option_map SqlText (u_model data)) b1 in
  let b3 := pushIfDefined "year = " (option_map SqlNumber (u_year data)) b2 in
  let b4 := pushIfDefined "mileage = "
              (option_map SqlNumber (u_mileage data)) b3 in
  let b5 := pushIfDefined "price = " (option_map SqlNumber (u_price data)) b4 in
  let b6 := pushIfDefined "description = "
              (option_map SqlText (u_description data)) b5 in
  let b7 := pushIfDefined "main_photo = "
              (option_map SqlText (u_mainPhoto data)) b6 in
  let b8 := pushIfDefined "technical_specs = "
              (option_map (fun specs => SqlText (JSON_stringify specs))
                 (u_technicalSpecs data)) b7 in
  let b9 := pushIfDefined "status = " (option_map SqlText (u_status data)) b8 in
  {| fragments := fragments b9 ++ ["updated_at = NOW()"];
     values := values b9;
     valueIndex := valueIndex b9 |}.

Definition updateQuery (b : Builder) : string :=
  template
    ["        UPDATE vehicles ";
     "        SET " ++ String.concat ", " (fragments b);
     "        WHERE id = $" ++ JsNumber.toString (valueIndex b)
       ++ " AND deleted_at IS NULL";
     "        RETURNING *"].

Definition update (id : string) (data : UpdateVehicleData)
  : Db (option Vehicle) :=
  _ <-- pool_connect ;;
  dbTryFinally
    (dbTryCatch
       (let b := applyUpdates data in
        result <-- client_query (updateQuery b) (values b ++ [SqlText id]) ;;
        firstRowOrNull result)
       (fun error =>
          _ <-- logger_logError error "update_vehicle" (Some id) ;;
          DbRet None))
    client_release.

Definition updatePriceSql : string :=
  template
    ["        UPDATE vehicles ";
     "        SET price = $1, updated_at = NOW()";
     "        WHERE id = $2 AND deleted_at IS NULL";
     "        RETURNING *"].

Definition updatePrice (id : string) (price : Js.Number)
  : Db (option Vehicle) :=
  _ <-- pool_connect ;;
  dbTryFinally
    (dbTryCatch
       (result <-- client_query updatePriceSql [SqlNumber price; SqlText id] ;;
        firstRowOrNull result)
       (fun error =>
          _ <-- logger_logError error "update_vehicle_price" (Some id) ;;
          DbRet None))
    client_release.

Definition updateStatusSql : string :=
  template
    ["        UPDATE vehicles ";
     "        SET status = $1, updated_at = NOW()";
     "        WHERE id = $2 AND deleted_at IS NULL";
     "        RETURNING *"].

Definition updateStatus (id : string) (status : string)
  : Db (option Vehicle) :=
  _ <-- pool_connect ;;
  dbTryFinally
    (dbTryCatch
       (result <-- client_query updateStatusSql [SqlText status; SqlText id] ;;
        firstRowOrNull result)
       (fun error =>
          _ <-- logger_logError error "update_vehicle_status" (Some id) ;;
          DbRet None))
    client_release.

Definition deleteSql : string :=
  template
    ["        UPDATE vehicles ";
     "        SET deleted_at = NOW()";
     "        WHERE id = $1 AND deleted_at IS NULL"].

(** [delete]: [(result.rowCount ?? 0) > 0]. *)
Definition delete (id : string) : Db bool :=
  _ <-- pool_connect ;;
  dbTryFinally
    (dbTryCatch
       (result <-- client_query deleteSql [SqlText id] ;;
        DbRet match rowCount result with
              | Some n => (0 <? n)%nat
              | None => false
              end)
       (fun error =>
          _ <-- logger_logError error "delete_vehicle" (Some id) ;;
          DbRet false))
    client_release.

End WithJson.

Arguments v_id {Json} _.
Arguments v_brand {Json} _.
Arguments v_model {Json} _.
Arguments v_year {Json} _.
Arguments v_mileage {Json} _.
Arguments v_price {Json} _.
Arguments v_description {Json} _.
Arguments v_mainPhoto {Json} _.
Arguments v_technicalSpecs {Json} _.
Arguments v_status {Json} _.
Arguments v_createdAt {Json} _.
Arguments v_updatedAt {Json} _.
Arguments Build_Vehicle {Json}.
Arguments c_brand {Json} _.
Arguments c_model {Json} _.
Arguments c_year {Json} _.
Arguments c_mileage {Json} _.
Arguments c_price {Json} _.
Arguments c_description {Json} _.
Arguments c_mainPhoto {Json} _.
Arguments c_technicalSpecs {Json} _.
Arguments c_status {Json} _.
Arguments Build_CreateVehicleData {Json}.
Arguments u_brand {Json} _.
Arguments u_model {Json} _.
Arguments u_year {Json} _.
Arguments u_mileage {Json} _.
Arguments u_price {Json} _.
Arguments u_description {Json} _.
Arguments u_mainPhoto {Json} _.
Arguments u_technicalSpecs {Json} _.
Arguments u_status {Json} _.
Arguments Build_UpdateVehicleData {Json}.
Arguments vehicles {Json} _.
Arguments total {Json} _.
Arguments page {Json} _.
Arguments limit {Json} _.
Arguments totalPages {Json} _.
Arguments Build_VehiclePage {Json}.
Arguments mapRowToVehicle {Json} JSON_parse row.
Arguments mapFirstRow {Json} JSON_parse result.
Arguments firstRowOrNull {Json} JSON_parse result.
Arguments mapRows {Json} JSON_parse rs.
Arguments create {Json} JSON_parse JSON_stringify data.
Arguments findById {Json} JSON_parse id.
Arguments findAll {Json} JSON_parse Math_ceil_div filters pagination.
Arguments noChange {Json}.
Arguments applyUpdates {Json} JSON_stringify data.
Arguments update {Json} JSON_parse JSON_stringify id data.
Arguments updatePrice {Json} JSON_parse id price.
Arguments updateStatus {Json} JSON_parse id status.

(** What a call of the repository did to the database and the log. *)
Inductive DbEvent : Type :=
| EvConnect
| EvQuery (text : string) (values : list SqlValue)
| EvRelease
| EvLogError (e : Js.Thrown) (operation : string) (vehicleId : option string).

(** Runs a method: [connection] is how [pool.connect()] settles and
    [answer n] how the [n]-th query does. *)
Fixpoint runDb {A : Type} (m : Db A) (connection : Js.Settled unit)
    (answer : nat -> Js.Settled QueryResult) (n : nat)
  : list DbEvent * Js.Settled A :=
  match m with
  | DbRet a => ([], Js.Fulfilled a)
  | DbThrow e => ([], Js.Rejected e)
  | Connect k =>
      let '(events, out) := runDb (k connection) connection answer n in
      (EvConnect :: events, out)
  | Query text values k =>
      let '(events, out) := runDb (k (answer n)) connection answer (S n) in
      (EvQuery text values :: events, out)
  | Release k =>
      let '(events, out) := runDb k connection answer n in
      (EvRelease :: events, out)
  | LogError e op id k =>
      let '(events, out) := runDb k connection answer n in
      (EvLogError e op id :: events, out)
  end.

(** The page [findAll] answers when something failed. *)
Definition emptyPage {Json : Type} (pagination : PaginationParams)
  : VehiclePage Json :=
  {| vehicles := []; total := JsNumber.zero; page := p_page pagination;
     limit := p_limit pagination; totalPages := JsNumber.zero |}.

(** Where a call stands with the pooled client. *)
Inductive ClientState : Type :=
| Fresh
| Failed (e : Js.Thrown)
| Held
| Released.

(** [disciplined m st]: from the state [st] of the client, the code [m]
    connects once, queries only while it holds the client, releases it
    once, returns only after the release, and throws only the error of a
    failed connection. *)
Fixpoint disciplined {A : Type} (m : Db A) (st : ClientState) : Prop :=
  match m with
  | DbRet _ => st = Released
  | DbThrow e => st = Failed e
  | Connect k =>
      st = Fresh
      /\ disciplined (k (Js.Fulfilled tt)) Held
      /\ forall e, disciplined (k (Js.Rejected e)) (Failed e)
  | Query _ _ k => st = Held /\ forall r, disciplined (k r) Held
  | Release k => st = Held /\ disciplined k Released
  | LogError _ _ _ k => st = Held /\ disciplined k Held
  end.

Definition isQueryOrLog (ev : DbEvent) : Prop :=
  match ev with
  | EvQuery _ _ | EvLogError _ _ _ => True
  | EvConnect | EvRelease => False
  end.

(** A call that got its client used it and gave it back as its last
    action, and its promise is fulfilled; a call that got none did
    nothing and its promise is rejected with the error of the pool. *)
Definition ReleasesItsClient {A : Type} (m : Db A) : Prop :=
  forall answer,
    (forall e, runDb m (Js.Rejected e) answer 0 = ([EvConnect], Js.Rejected e))
    /\ exists middle a,
         runDb m (Js.Fulfilled tt) answer 0
         = ((EvConnect :: middle ++ [EvRelease])%list, Js.Fulfilled a)
         /\ Forall isQueryOrLog middle.

(** The fragments of a statement whose placeholders are numbered from
    [k] on, one for each parameter. *)
Fixpoint numbered (k : nat) (items : list (string * SqlValue)) : list string :=
  match items with
  | [] => []
  | (sql, _) :: rest =>
      (sql ++ "$" ++ JsNumber.toString k) :: numbered (S k) rest
  end.

(** The placeholders of [b] are [$1], [$2], ... in the order of its
    parameters, after the fragments [base] that have none. *)
Definition Numbered (base : list string) (b : Builder) : Prop :=
  exists items,
    fragments b = (base ++ numbered 1 items)%list
    /\ values b = map snd items
    /\ valueIndex b = S (List.length items).

(** A parameter that is a number is neither NaN nor 0. *)
Definition truthyParameter (v : SqlValue) : Prop :=
  match v with
  | SqlNumber n => JsNumber.truthy n = true
  | _ => True
  end.

End VehicleRepository.

(** ** VehicleController.updatePrice (controllers/vehicleController.ts) *)

Module VehicleController.

Import VehicleRepository.

(** What [res.status(code).json(...)] sends: the status, [success], the
    [error] or [message] text and the vehicle of [data]. *)
Record ApiResponse (Data : Type) : Type := {
  code : nat;
  ok : bool;
  text : string;
  data : option Data
}.
Arguments code {Data} a.
Arguments ok {Data} a.
Arguments text {Data} a.
Arguments data {Data} a.

(** [req.body.price]: a number, or a value whose [typeof] is not
    ['number']. *)
Inductive BodyValue : Type :=
| BodyNumber (x : Js.Number)
| BodyOther.

Definition failure {Data : Type} (status : nat) (error : string)
  : ApiResponse Data :=
  {| code := status; ok := false; text := error; data := None |}.

Definition updatePrice {Json : Type} (JSON_parse : string -> Js.Settled Json)
    (params_id : option string) (price : BodyValue)
  : Db (ApiResponse (Vehicle Json)) :=
  dbTryCatch
    (match truthy params_id with
     | None => DbRet (failure 400 "ID is required")
     | Some id =>
         match price with
         | BodyOther => DbRet (failure 400 "Valid price is required")
         | BodyNumber x =>
             if JsNumber.ltZero x then
               DbRet (failure 400 "Valid price is required")
             else
               vehicle <-- VehicleRepository.updatePrice JSON_parse id x ;;
               match vehicle with
               | None => DbRet (failure 404 "Vehicle not found")
               | Some v =>
                   DbRet {| code := 200; ok := true;
                            text := "Vehicle price updated successfully";
                            data := Some v |}
               end
         end
     end)
    (fun error =>
       _ <-- logger_logError error "update_vehicle_price" params_id ;;
       DbRet (failure 500 "Failed to update vehicle price")).

End VehicleController.

(** ** The guards of the administrative routes (middleware/auth.ts,
    services/auth.ts, routes/health.ts) *)

Module Auth.

Inductive UserRole : Type := ADMIN | SALES | CUSTOMER.

Definition UserRole_eqb (a b : UserRole) : bool :=
  match a, b with
  | ADMIN, ADMIN | SALES, SALES | CUSTOMER, CUSTOMER => true
  | _, _ => false
  end.

Record JwtPayload : Type := {
  userId : string;
  email : string;
  role : UserRole
}.

Record User : Type := {
  user_id : string;
  user_email : string;
  user_password : string;
  user_firstName : string;
  user_lastName : string;
  user_role : UserRole;
  user_isActive : bool;
  user_createdAt : Z;
  user_updatedAt : Z
}.

(** The parts of an Express request the guards read and write. *)
Record Request : Type := {
  authorization : option string;
  user : option JwtPayload
}.

(** What a middleware does: it answers the request, or it calls [next()]
    with the request as it leaves it. *)
Inductive Verdict : Type :=
| Answer (response : HttpResponse)
| Next (req : Request).

Definition deny (code : nat) (error : string) : Verdict :=
  Answer {| status := code; success := false; body := error |}.

(** [text.split(' ')]: the pieces between the spaces, [current] being the
    piece read so far. *)
Fixpoint splitAtSpaces (text current : string) : list string :=
  match text with
  | EmptyString => [current]
  | String c rest =>
      if Ascii.eqb c " " then current :: splitAtSpaces rest EmptyString
      else splitAtSpaces rest (current ++ String c EmptyString)
  end.

Definition split (text : string) : list string :=
  splitAtSpaces text EmptyString.

(** [authService.hasRole]: [requiredRoles.includes(userRole)]. *)
Definition hasRole (userRole : UserRole) (requiredRoles : list UserRole)
  : bool :=
  existsb (UserRole_eqb userRole) requiredRoles.

(** [authService.isAdmin]. *)
Definition isAdmin (userRole : UserRole) : bool :=
  UserRole_eqb userRole ADMIN.

(** [authHeader && authHeader.split(' ')[1]], as a condition: the token,
    when there is a header and its second piece is not empty. *)
Definition bearerToken (authHeader : option string) : option string :=
  match truthy authHeader with
  | None => None
  | Some header => truthy (nth_error (split header) 1)
  end.

Section Guards.

(** How [authService.verifyToken] and [userRepository.findById] settle:
    the first answers [null] for a token it cannot verify and never
    rejects, the second rejects when its query fails. *)
Variable verifyToken : string -> option JwtPayload.
Variable findById : string -> Js.Settled (option User).

(** [authenticateToken]: the verdict, and the error given to
    [logger.logError] when the lookup of the user failed. *)
Definition authenticateToken (req : Request) : Verdict * option Js.Thrown :=
  match bearerToken (authorization req) with
  | None => (deny 401 "Access token required", None)
  | Some token =>
      match verifyToken token with
      | None => (deny 401 "Invalid or expired token", None)
      | Some payload =>
          match findById (userId payload) with
          | Js.Rejected e => (deny 500 "Authentication failed", Some e)
          | Js.Fulfilled None => (deny 401 "User not found or inactive", None)
          | Js.Fulfilled (Some found) =>
              if negb (user_isActive found) then
                (deny 401 "User not found or inactive", None)
              else
                (Next {| authorization := authorization req;
                         user := Some payload |}, None)
          end
      end
  end.

Definition requireRole (roles : list UserRole) (req : Request) : Verdict :=
  match user req with
  | None => deny 401 "Authentication required"
  | Some payload =>
      if negb (hasRole (role payload) roles) then
        deny 403 "Insufficient permissions"
      else Next req
  end.

Definition requireAdmin (req : Request) : Verdict :=
  match user req with
  | None => deny 401 "Authentication required"
  | Some payload =>
      if negb (isAdmin (role payload)) then deny 403 "Admin access required"
      else Next req
  end.

(** [optionalAuth]: the request given to [next()], which is always
    called; an error of the lookup is swallowed. *)
Definition optionalAuth (req : Request) : Verdict :=
  match bearerToken (authorization req) with
  | None => Next req
  | Some token =>
      match verifyToken token with
      | None => Next req
      | Some payload =>
          match findById (userId payload) with
          | Js.Rejected _ => Next req
          | Js.Fulfilled None => Next req
          | Js.Fulfilled (Some found) =>
              if user_isActive found then
                Next {| authorization := authorization req;
                        user := Some payload |}
              else Next req
          end
      end
  end.

(** [router.post('/price-processor/trigger', authenticateToken,
    requireRole([UserRole.ADMIN]), healthController.triggerPriceProcessing)]:
    the handler runs when both guards have called [next()]. *)
Definition triggerRoute (req : Request) (sys : System)
  : HttpResponse * System :=
  match fst (authenticateToken req) with
  | Answer response => (response, sys)
  | Next req' =>
      match requireRole [ADMIN] req' with
      | Answer response => (response, sys)
      | Next _ => triggerPriceProcessing sys
      end
  end.

End Guards.

End Auth.

(** ** Sample inputs of the repository, the controller and the guards *)

(** A process with no bucket and no local file. *)
Definition noFilesWorld : World :=
  {| AWS_S3_BUCKET := None;
     localCsvExists := false;
     now := 1700000000000%Z |}.

(** A listing of the bucket without any CSV object. *)
Definition listingWithoutCsv : ListObjectsV2Output :=
  {| Contents :=
       Some [ {| Key := Some "price-updates/";
                 LastModified := Some 1699999000000%Z |};
              {| Key := Some "price-updates/readme.txt";
                 LastModified := Some 1699999500000%Z |} ] |}.

(** The objects of [remoteListing] and the one [processFromS3] reads. *)
Definition remoteObjects : list S3Object :=
  [ {| Key := Some "price-updates/";
       LastModified := Some 1699999000000%Z |};
    {| Key := Some "price-updates/2023-11-13.csv";
       LastModified := Some 1699900000000%Z |};
    {| Key := Some "price-updates/2023-11-14-a.csv";
       LastModified := Some 1699990000000%Z |};
    {| Key := Some "price-updates/2023-11-14-b.csv";
       LastModified := Some 1699990000000%Z |} ].

Definition newestRemoteObject : S3Object :=
  {| Key := Some "price-updates/2023-11-14-a.csv";
     LastModified := Some 1699990000000%Z |}.

(** [JSON.parse] on the texts used below: the text of an object is not
    JSON. *)
Definition sampleParse (text : string) : Js.Settled string :=
  if String.eqb text "[object Object]" then
    Js.Rejected (Js.ErrorObj "Unexpected token o in JSON at position 1")
  else Js.Fulfilled text.

(** [Math.ceil(total / limit)] for pages of one vehicle. *)
Definition onePerPage (total limit : Js.Number) : Js.Number := total.

Definition storedRow (specs : string) : VehicleRepository.DbRow :=
  {| VehicleRepository.row_id := "v1";
     VehicleRepository.row_brand := "Seat";
     VehicleRepository.row_model := "Ibiza";
     VehicleRepository.row_year := Js.Finite false 2019 0;
     VehicleRepository.row_mileage := Js.Finite false 42000 0;
     VehicleRepository.row_price := Some "18500.00";
     VehicleRepository.row_description := None;
     VehicleRepository.row_main_photo := None;
     VehicleRepository.row_technical_specs := VehicleRepository.Truthy specs;
     VehicleRepository.row_status := "available";
     VehicleRepository.row_created_at := 1690000000000%Z;
     VehicleRepository.row_updated_at := 1700000000000%Z;
     VehicleRepository.row_count := None |}.

(** The row of [SELECT COUNT(...)]. *)
Definition countRow : VehicleRepository.DbRow :=
  {| VehicleRepository.row_id := EmptyString;
     VehicleRepository.row_brand := EmptyString;
     VehicleRepository.row_model := EmptyString;
     VehicleRepository.row_year := Js.NaN;
     VehicleRepository.row_mileage := Js.NaN;
     VehicleRepository.row_price := None;
     VehicleRepository.row_description := None;
     VehicleRepository.row_main_photo := None;
     VehicleRepository.row_technical_specs := VehicleRepository.Falsy;
     VehicleRepository.row_status := EmptyString;
     VehicleRepository.row_created_at := 0%Z;
     VehicleRepository.row_updated_at := 0%Z;
     VehicleRepository.row_count := Some "1" |}.

Definition resultOf (rows : list VehicleRepository.DbRow)
  : VehicleRepository.QueryResult :=
  {| VehicleRepository.rows := rows;
     VehicleRepository.rowCount := Some (List.length rows) |}.

(** A database whose every query fails. *)
Definition databaseDown (n : nat) : Js.Settled VehicleRepository.QueryResult :=
  Js.Rejected (Js.ErrorObj "Connection terminated unexpectedly").

(** A database that counts one vehicle and then returns its row, with the
    given text in [technical_specs]. *)
Definition oneVehicle (specs : string) (n : nat)
  : Js.Settled VehicleRepository.QueryResult :=
  match n with
  | 0 => Js.Fulfilled (resultOf [countRow])
  | _ => Js.Fulfilled (resultOf [storedRow specs])
  end.

Definition noFilters : VehicleRepository.VehicleFilters :=
  {| VehicleRepository.f_brand := None;
     VehicleRepository.f_model := None;
     VehicleRepository.f_yearMin := None;
     VehicleRepository.f_yearMax := None;
     VehicleRepository.f_priceMin := None;
     VehicleRepository.f_priceMax := None;
     VehicleRepository.f_mileageMax := None;
     VehicleRepository.f_status := None |}.

Definition firstPage : VehicleRepository.PaginationParams :=
  {| VehicleRepository.p_page := Js.Finite false 1 0;
     VehicleRepository.p_limit := Js.Finite false 1 0;
     VehicleRepository.p_offset := Js.Finite false 0 0 |}.

Definition adminPayload : Auth.JwtPayload :=
  {| Auth.userId := "u1";
     Auth.email := "admin@example.com";
     Auth.role := Auth.ADMIN |}.

Definition adminUser : Auth.User :=
  {| Auth.user_id := "u1";
     Auth.user_email := "admin@example.com";
     Auth.user_password := "$2a$12$hash";
     Auth.user_firstName := "Ada";
     Auth.user_lastName := "Admin";
     Auth.user_role := Auth.ADMIN;
     Auth.user_isActive := true;
     Auth.user_createdAt := 1690000000000%Z;
     Auth.user_updatedAt := 1690000000000%Z |}.

(** A token service that knows one token, and a user table with one
    active administrator. *)
Definition knownToken (token : string) : option Auth.JwtPayload :=
  if String.eqb token "abc" then Some adminPayload else None.

Definition userTable (id : string) : Js.Settled (option Auth.User) :=
  if String.eqb id "u1" then Js.Fulfilled (Some adminUser)
  else Js.Fulfilled None.

Definition adminRequest : Auth.Request :=
  {| Auth.authorization := Some "Bearer abc"; Auth.user := None |}.

(** ** Proofs

    The methods of the service are unfolded by [autounfold with async]. *)
Create HintDb async.
#[export] Hint Unfold startProcessing processFromS3 processFromLocal processCSVStream
  onStreamEnd onStreamError
  processUpdatesConcurrently tryFinally tryCatch await bind logger_info logger_warn
  logger_error logger_error_with s3_listObjectsV2 createReadStream : async.

(** Follows every path of a method: splits the conjunctions of [guarded]
    and takes both sides of whatever the code branches on. *)
Ltac walk :=
  repeat (autounfold with async; simpl; intros;
          match goal with
          | |- _ /\ _ => split
          | |- _ = _ => reflexivity
          | |- context [match ?x with _ => _ end] => destruct x
          | |- context [if ?x then _ else _] => destruct x
          end).

(** A call accepted by the guard holds it until its last turn, which
    clears both flags on every path, that of an exception included. *)
Lemma guarded_startProcessing : guarded startProcessing newService.
Proof.
  walk.
Qed.

Lemma appliedUpdates_with_request r sys :
  isUpdatePrice r = false ->
  appliedUpdates (with_request r sys) = appliedUpdates sys.
Proof.
  intros Hr. unfold appliedUpdates. simpl.
  rewrite filter_app. simpl. rewrite Hr. apply app_nil_r.
Qed.

Lemma exec_guarded {A : Type} (m : Async A) :
  forall sys sys' t,
    guarded m (service sys) ->
    exec m sys = (sys', t) ->
    world sys' = world sys /\ pool sys' = pool sys
    /\ finished sys' = finished sys
    /\ appliedUpdates sys' = appliedUpdates sys
    /\ ((exists a, t = Ret a) /\ service sys' = newService
        \/ suspended t /\ service sys' = busy /\ guarded t busy).
Proof.
  induction m as [a|e|k IH|f k IH|entry k IH|k IH|src k IH|k IH
                 |b p k IH|i p k IH|src us onData onEnd IHe onError IHr];
    simpl; intros sys sys' t G E.
  - inversion E; subst. repeat split; auto. left. eauto.
  - contradiction.
  - eapply IH; eauto.
  - destruct (IH (with_service f sys) _ _ G E) as (W & P & F & U & R).
    repeat split; auto.
  - destruct (IH (with_log entry sys) _ _ G E) as (W & P & F & U & R).
    repeat split; auto.
  - eapply IH; eauto.
  - destruct (IH (with_request (OpenStream src) sys) _ _ G E)
      as (W & P & F & U & R).
    rewrite appliedUpdates_with_request in U by reflexivity.
    repeat split; auto.
  - inversion E; subst. destruct G as [B G]. rewrite B in G.
    repeat split; auto. right. simpl. auto.
  - inversion E; subst. destruct G as [B G]. rewrite B in G.
    rewrite appliedUpdates_with_request by reflexivity.
    repeat split; auto. right. simpl. auto.
  - contradiction.
  - inversion E; subst. destruct G as (B & G1 & G2). rewrite B in G1, G2.
    repeat split; auto. right. simpl. auto.
Qed.

Lemma leftover_suspended (t : Async unit) :
  suspended t -> leftover t = (Some t, None).
Proof. destruct t; simpl; intros H; try contradiction; reflexivity. Qed.

Lemma resume_guarded {A : Type} (t k : Async A) ev date :
  guarded t busy -> resume t ev date = Some k -> guarded k busy.
Proof.
  destruct t; destruct ev; simpl; intros G E; try discriminate;
    inversion E; subst; clear E; simpl; try tauto.
  - destruct G as [_ G]. apply G.
  - destruct G as (_ & G & _). apply G.
  - destruct G as (_ & _ & G). apply G.
Qed.

(** A call that finds the guard taken: a warning in the log, a resolved
    promise, and nothing else. *)
Lemma invoke_rejected sys :
  processingLock (service sys) = true ->
  invoke startProcessing sys
  = with_finished Resolved (with_log alreadyInProgress sys).
Proof.
  intros L. unfold invoke. simpl. rewrite L. reflexivity.
Qed.

Lemma invoke_accepted sys :
  Inv sys -> service sys = newService ->
  Inv (invoke startProcessing sys)
  /\ service (invoke startProcessing sys) = busy
  /\ (exists t, pool (invoke startProcessing sys) = [t])
  /\ finished (invoke startProcessing sys) = finished sys.
Proof.
  intros [St Fin Req] Idle. unfold invoke.
  destruct (exec startProcessing sys) as [sys' t] eqn:E.
  assert (G : guarded startProcessing (service sys))
    by (rewrite Idle; apply guarded_startProcessing).
  destruct (exec_guarded startProcessing sys sys' t G E) as (W & P & F & U & R).
  destruct St as [[_ Pool]|[B _]]; [|rewrite Idle in B; discriminate].
  destruct R as [[[a ->] S]|(Su & S & Gt)].
  - exfalso. revert E. unfold startProcessing. simpl. rewrite Idle. simpl.
    autounfold with async. simpl.
    destruct (truthy (AWS_S3_BUCKET (world sys))); simpl; discriminate.
  - rewrite (leftover_suspended _ Su). simpl. rewrite P, Pool. simpl.
    split; [constructor; simpl|repeat split; simpl; eauto; congruence].
    + right. eauto.
    + congruence.
    + unfold appliedUpdates in *. simpl. congruence.
Qed.

Lemma invoke_accepted_logs sys :
  processingLock (service sys) = false ->
  exists more,
    logs (invoke startProcessing sys)
    = (logs sys ++ startingEntry :: more)%list.
Proof.
  intros L. unfold invoke, startProcessing. simpl. rewrite L.
  autounfold with async. simpl.
  destruct (truthy (AWS_S3_BUCKET (world sys))); simpl.
  - exists []. reflexivity.
  - eexists. rewrite <- app_assoc. reflexivity.
Qed.

Lemma replaceAt_single {A : Type} (i : nat) (t : A) (x : option A) :
  nth_error [t] i <> None ->
  i = 0 /\ replaceAt i x [t] = match x with Some y => [y] | None => [] end.
Proof.
  destruct i as [|[|i]]; simpl; intros H; try (now destruct H).
  split; reflexivity.
Qed.

(** Waking the run either leaves it suspended, with the guard still held,
    or ends it: its promise is resolved and the guard is released. *)
Lemma wake_guarded i ev sys sys' :
  Inv sys -> wake i ev sys = Some sys' ->
  Inv sys'
  /\ (finished sys' = finished sys /\ service sys' = busy
        /\ (exists t, pool sys' = [t])
      \/ finished sys' = (finished sys ++ [Resolved])%list
         /\ service sys' = newService /\ pool sys' = []).
Proof.
  intros [St Fin Req]. unfold wake.
  destruct (nth_error (pool sys) i) as [t|] eqn:N; [|discriminate].
  destruct St as [[_ Pool]|(B & t0 & Pool & Su & G)].
  { rewrite Pool in N. destruct i; discriminate. }
  rewrite Pool in N.
  destruct (replaceAt_single i t0 (@None (Async unit))) as [-> _];
    [congruence|].
  simpl in N. inversion N; subst t0; clear N.
  destruct (resume t ev (now (world sys))) as [k|] eqn:R; [|discriminate].
  pose proof (resume_guarded _ _ _ _ G R) as Gk.
  destruct (exec k sys) as [sys1 t1] eqn:E.
  rewrite <- B in Gk.
  destruct (exec_guarded k sys sys1 t1 Gk E) as (W & P & F & U & Out).
  destruct Out as [[[a ->] S]|(Su1 & S & G1)].
  - simpl. intros H. injection H as <-. rewrite P, Pool.
    split; [constructor; simpl|right; simpl; rewrite F; auto].
    + left. auto.
    + rewrite F. apply Forall_app. split; auto.
    + unfold appliedUpdates in *. simpl. congruence.
  - rewrite (leftover_suspended _ Su1). simpl. rewrite P, Pool.
    intros H. injection H as <-.
    split; [constructor; simpl|left; simpl; eauto].
    + right. eauto.
    + congruence.
    + unfold appliedUpdates in *. simpl. congruence.
Qed.

Lemma wake_inv i ev sys sys' :
  Inv sys -> wake i ev sys = Some sys' -> Inv sys'.
Proof. intros I H. now destruct (wake_guarded i ev sys sys' I H). Qed.

Lemma step_inv l sys sys' :
  Inv sys -> step sys l = Some sys' -> Inv sys'.
Proof.
  intros I. pose proof I as [St Fin Req].
  assert (Call : Inv (invoke startProcessing sys)).
  { destruct (inv_state _ I) as [[Idle _]|(B & _)].
    - now apply invoke_accepted.
    - rewrite invoke_rejected by (rewrite B; reflexivity).
      constructor; simpl; auto. apply Forall_app. split; auto. }
  destruct l as [| | |w|i ev]; simpl; intros H.
  - injection H as <-. exact Call.
  - injection H as <-. unfold triggerPriceProcessing.
    destruct (isCurrentlyProcessing (service sys)); simpl; assumption.
  - injection H as <-. unfold scheduledTick.
    destruct (isCurrentlyProcessing (service sys)) eqn:P; simpl.
    + assumption.
    + destruct (inv_state _ I) as [[Idle Pool]|(B & _)].
      * apply invoke_accepted; [constructor|]; simpl; auto.
      * unfold isCurrentlyProcessing in P. rewrite B in P. discriminate.
  - injection H as <-. constructor; simpl; auto.
  - exact (wake_inv i ev sys sys' I H).
Qed.

Lemma run_inv trace : forall sys sys',
  Inv sys -> run sys trace = Some sys' -> Inv sys'.
Proof.
  induction trace as [|l rest IH]; simpl; intros sys sys' I H.
  - inversion H; subst. exact I.
  - destruct (step sys l) as [sys1|] eqn:S; [|discriminate].
    eapply IH; [|exact H]. eapply step_inv; eauto.
Qed.

Lemma boot_inv w : Inv (boot w).
Proof. constructor; simpl; auto. Qed.

Lemma reachable_inv sys : Reachable sys -> Inv sys.
Proof.
  intros (w & trace & H). eapply run_inv; [apply boot_inv|exact H].
Qed.

(** ** Properties of the ingestion run *)

(** C9: in every reachable state of the process the [processingQueue] of
    the service is empty, so [getProcessingStatus()] reports a
    [queueLength] of 0. *)
Theorem processingQueue_always_empty sys :
  Reachable sys ->
  processingQueue (service sys) = []
  /\ queueLength (getProcessingStatus (service sys)) = 0.
Proof.
  intros R. destruct (inv_state _ (reachable_inv _ R)) as [[S _]|[S _]];
    rewrite S; split; reflexivity.
Qed.

Lemma processingQueue_always_empty_witness :
  processingQueue (service (invoke startProcessing (boot sampleWorld))) = []
  /\ queueLength
       (getProcessingStatus
          (service (invoke startProcessing (boot sampleWorld)))) = 0.
Proof.
  apply (processingQueue_always_empty (invoke startProcessing (boot sampleWorld))).
  exists sampleWorld, [LCall]. reflexivity.
Defined.

(** C10: wherever the service can be observed (between two turns of the
    event loop), [isCurrentlyProcessing()] returns the value of the
    [processingLock] guard. *)
Theorem isProcessing_equals_lock sys :
  Reachable sys ->
  isCurrentlyProcessing (service sys) = processingLock (service sys).
Proof.
  intros R. destruct (inv_state _ (reachable_inv _ R)) as [[S _]|[S _]];
    unfold isCurrentlyProcessing; rewrite S; reflexivity.
Qed.

Lemma isProcessing_equals_lock_witness :
  isCurrentlyProcessing (service (invoke startProcessing (boot sampleWorld)))
  = processingLock (service (invoke startProcessing (boot sampleWorld))).
Proof.
  apply (isProcessing_equals_lock (invoke startProcessing (boot sampleWorld))).
  exists sampleWorld, [LCall]. reflexivity.
Defined.

(** C2: when a call of [startProcessing()] has not resolved yet, a second
    call resolves at once without an error, having only logged a warning:
    the service, the requests sent and the suspended run are untouched, and
    that run is the only one. *)
Theorem second_call_is_noop sys :
  Reachable sys ->
  pool sys <> [] ->
  exists sys',
    step sys LCall = Some sys'
    /\ service sys' = service sys
    /\ requests sys' = requests sys
    /\ pool sys' = pool sys
    /\ List.length (pool sys') = 1
    /\ logs sys' = (logs sys ++ [alreadyInProgress])%list
    /\ finished sys' = (finished sys ++ [Resolved])%list.
Proof.
  intros R NE. destruct (inv_state _ (reachable_inv _ R))
    as [[_ Pool]|(B & t & Pool & _)]; [contradiction|].
  exists (with_finished Resolved (with_log alreadyInProgress sys)).
  simpl. rewrite invoke_rejected by (rewrite B; reflexivity).
  rewrite Pool. repeat split.
Qed.

Lemma second_call_is_noop_witness :
  exists sys',
    step (invoke startProcessing (boot sampleWorld)) LCall = Some sys'
    /\ service sys' = service (invoke startProcessing (boot sampleWorld))
    /\ requests sys' = requests (invoke startProcessing (boot sampleWorld))
    /\ pool sys' = pool (invoke startProcessing (boot sampleWorld))
    /\ List.length (pool sys') = 1
    /\ logs sys'
       = (logs (invoke startProcessing (boot sampleWorld))
          ++ [alreadyInProgress])%list
    /\ finished sys'
       = (finished (invoke startProcessing (boot sampleWorld))
          ++ [Resolved])%list.
Proof.
  apply (second_call_is_noop (invoke startProcessing (boot sampleWorld))).
  - exists sampleWorld, [LCall]. reflexivity.
  - simpl. discriminate.
Defined.

(** C5: when the promise of a run settles, whatever the events that run
    met, the flag and the guard are cleared: [isCurrentlyProcessing()]
    returns false, and the next call of [startProcessing()] is accepted and
    starts a new run. *)
Theorem guard_released_when_settled sys i ev sys' :
  Reachable sys ->
  wake i ev sys = Some sys' ->
  finished sys' <> finished sys ->
  isCurrentlyProcessing (service sys') = false
  /\ processingLock (service sys') = false
  /\ exists t more,
       pool (invoke startProcessing sys') = [t]
       /\ service (invoke startProcessing sys') = busy
       /\ logs (invoke startProcessing sys')
          = (logs sys' ++ startingEntry :: more)%list.
Proof.
  intros R W Settled.
  destruct (wake_guarded i ev sys sys' (reachable_inv _ R) W)
    as [I [(F & _)|(_ & S & _)]]; [contradiction|].
  unfold isCurrentlyProcessing. rewrite S. repeat split.
  destruct (invoke_accepted sys' I S) as (_ & B & [t P] & _).
  destruct (invoke_accepted_logs sys') as [more L];
    [rewrite S; reflexivity|].
  exists t, more. auto.
Qed.

Lemma guard_released_when_settled_witness :
  isCurrentlyProcessing
    (service (after (boot sampleWorld) remoteDownTrace)) = false
  /\ processingLock (service (after (boot sampleWorld) remoteDownTrace))
     = false
  /\ exists t more,
       pool (invoke startProcessing
               (after (boot sampleWorld) remoteDownTrace)) = [t]
       /\ service (invoke startProcessing
                     (after (boot sampleWorld) remoteDownTrace)) = busy
       /\ logs (invoke startProcessing
                  (after (boot sampleWorld) remoteDownTrace))
          = (logs (after (boot sampleWorld) remoteDownTrace)
             ++ startingEntry :: more)%list.
Proof.
  apply (guard_released_when_settled
           (after (boot sampleWorld)
              [LCall;
               LWake 0 (WList (Js.Rejected (Js.ErrorObj "connect ETIMEDOUT")))])
           0 WTick).
  - exists sampleWorld,
      [LCall;
       LWake 0 (WList (Js.Rejected (Js.ErrorObj "connect ETIMEDOUT")))].
    reflexivity.
  - reflexivity.
  - simpl. discriminate.
Defined.

(** C6: the administrative trigger answers 409 and leaves the process as
    it is when a run is in progress; otherwise it answers 200 with the
    acknowledgement while the run it has just started is suspended, its
    promise not settled yet. *)
Theorem trigger_conflict_or_start sys :
  Reachable sys ->
  if isCurrentlyProcessing (service sys) then
    triggerPriceProcessing sys = (conflictResponse, sys)
  else
    fst (triggerPriceProcessing sys) = startedResponse
    /\ (exists t more,
          pool (snd (triggerPriceProcessing sys)) = [t]
          /\ suspended t
          /\ logs (snd (triggerPriceProcessing sys))
             = (logs sys ++ startingEntry :: more)%list)
    /\ isCurrentlyProcessing (service (snd (triggerPriceProcessing sys)))
       = true
    /\ finished (snd (triggerPriceProcessing sys)) = finished sys.
Proof.
  intros R. pose proof (reachable_inv _ R) as I.
  unfold triggerPriceProcessing.
  destruct (isCurrentlyProcessing (service sys)) eqn:P.
  - reflexivity.
  - simpl. destruct (inv_state _ I) as [[Idle _]|(B & _)];
      [|unfold isCurrentlyProcessing in P; rewrite B in P; discriminate].
    destruct (invoke_accepted sys I Idle) as (I' & B & _ & F).
    destruct (invoke_accepted_logs sys) as [more L];
      [rewrite Idle; reflexivity|].
    destruct (inv_state _ I') as [[Idle' _]|(_ & t & Pool & Su & _)];
      [rewrite B in Idle'; discriminate|].
    repeat split; auto.
    + exists t, more. auto.
    + unfold isCurrentlyProcessing. rewrite B. reflexivity.
Qed.

Lemma trigger_conflict_or_start_witness :
  triggerPriceProcessing (invoke startProcessing (boot sampleWorld))
  = (conflictResponse, invoke startProcessing (boot sampleWorld))
  /\ fst (triggerPriceProcessing (boot sampleWorld)) = startedResponse
  /\ finished (snd (triggerPriceProcessing (boot sampleWorld))) = [].
Proof.
  split.
  - apply (trigger_conflict_or_start (invoke startProcessing (boot sampleWorld))).
    exists sampleWorld, [LCall]. reflexivity.
  - assert (R : Reachable (boot sampleWorld))
      by (exists sampleWorld, []; reflexivity).
    destruct (trigger_conflict_or_start (boot sampleWorld) R)
      as (H1 & _ & _ & H2).
    split; [exact H1|exact H2].
Defined.

(** Supporting C1: no request to update a price ever leaves the process. *)
Lemma no_price_update_ever_sent sys :
  Reachable sys -> appliedUpdates sys = [].
Proof. intros R. exact (inv_requests _ (reachable_inv _ R)). Qed.

(** C1, evaluated: a run over a remote feed of two valid rows and a local
    file of one valid row reads both files to their end and resolves, and
    not one of the three price updates is sent to the vehicle repository:
    the only requests are the listing and the two streams. *)
Theorem both_sources_apply_nothing :
  List.length remoteFeed + List.length localFeed = 3
  /\ option_map pool (run (boot sampleWorld) bothSourcesTrace) = Some []
  /\ option_map finished (run (boot sampleWorld) bothSourcesTrace)
     = Some [Resolved]
  /\ option_map requests (run (boot sampleWorld) bothSourcesTrace)
     = Some
         [ListObjects "vehicle-feeds" "price-updates/";
          OpenStream
            (S3Stream "vehicle-feeds" "price-updates/2023-11-14-a.csv");
          OpenStream (LocalStream localPath)]
  /\ option_map appliedUpdates (run (boot sampleWorld) bothSourcesTrace)
     = Some [].
Proof. repeat split; vm_compute; reflexivity. Qed.

(** C3, evaluated: when listing the bucket fails, the error is logged and
    the run ends there, its promise resolved and the guard released; the
    local file, which exists, is never opened. *)
Theorem remote_failure_skips_fallback :
  localCsvExists sampleWorld = true
  /\ option_map pool (run (boot sampleWorld) remoteDownTrace) = Some []
  /\ option_map finished (run (boot sampleWorld) remoteDownTrace)
     = Some [Resolved]
  /\ option_map service (run (boot sampleWorld) remoteDownTrace)
     = Some newService
  /\ option_map requests (run (boot sampleWorld) remoteDownTrace)
     = Some [ListObjects "vehicle-feeds" "price-updates/"]
  /\ option_map logs (run (boot sampleWorld) remoteDownTrace)
     = Some
         [startingEntry;
          {| level := Error; message := "Failed to process S3 CSV";
             meta := Some "connect ETIMEDOUT" |};
          {| level := Error; message := "connect ETIMEDOUT"; meta := None |}].
Proof. repeat split; vm_compute; reflexivity. Qed.

(** Supporting C3: the same for every error of the listing and every
    idle process with a bucket configured: after the rejection the run
    needs one more turn to end, and it has sent nothing but the listing,
    whether a local file exists or not. *)
Lemma remote_failure_always_skips_fallback sys b e :
  service sys = newService -> pool sys = [] ->
  truthy (AWS_S3_BUCKET (world sys)) = Some b ->
  exists sys',
    run sys [LCall; LWake 0 (WList (Js.Rejected e)); LWake 0 WTick]
    = Some sys'
    /\ pool sys' = [] /\ service sys' = newService
    /\ finished sys' = (finished sys ++ [Resolved])%list
    /\ requests sys' = (requests sys ++ [ListObjects b "price-updates/"])%list.
Proof.
  destruct sys as [w s l r p f]. simpl. intros -> -> T.
  unfold invoke, startProcessing. simpl.
  autounfold with async. simpl. rewrite T. simpl.
  unfold wake. simpl.
  destruct e; simpl; eexists; (split; [reflexivity|]); simpl;
    repeat split; reflexivity.
Qed.

(** The sibling path of C3: with no bucket configured the remote step is
    skipped with a warning and the local file is read. *)
Example unconfigured_bucket_reaches_fallback :
  option_map requests
    (run (boot localOnlyWorld)
       ([LCall; LWake 0 WTick] ++ dataEvents 0 localFeed
        ++ [LWake 0 WEnd; LWake 0 WTick; LWake 0 WTick; LWake 0 WTick])%list)
  = Some [OpenStream (LocalStream localPath)].
Proof. vm_compute; reflexivity. Qed.

(** *** Parsing a feed *)

Lemma run_app t1 : forall sys t2,
  run sys (t1 ++ t2)
  = match run sys t1 with
    | Some sys' => run sys' t2
    | None => None
    end.
Proof.
  induction t1 as [|l t1 IH]; simpl; intros sys t2; [reflexivity|].
  destruct (step sys l); [apply IH|reflexivity].
Qed.

Lemma with_pool_same sys : with_pool (pool sys) sys = sys.
Proof. destruct sys; reflexivity. Qed.

(** The rows of a file, delivered to a listening parser, are appended to
    its batch one record each, in the order of the file. *)
Lemma run_dataEvents rows : forall sys src updates onEnd onError,
  pool sys = [Listen src updates onDataRow onEnd onError] ->
  run sys (dataEvents 0 rows)
  = Some (with_pool
            [Listen src
               (updates ++ map (recordOf (now (world sys))) rows)%list
               onDataRow onEnd onError] sys).
Proof.
  induction rows as [|row rows IH]; simpl; intros sys src updates onEnd onError P.
  - rewrite app_nil_r, <- P, with_pool_same. reflexivity.
  - unfold wake. rewrite P. simpl. rewrite P. simpl.
    rewrite (IH _ src (onDataRow updates row (now (world sys))) onEnd onError)
      by reflexivity.
    simpl. unfold onDataRow, with_pool. simpl.
    rewrite <- app_assoc. reflexivity.
Qed.

(** C4, as stated, fails: the third of the five rows of [corruptedFeed]
    has a price that is not a number, and the run that reads the file
    neither fails nor logs an error; it reports the file as processed. *)
Lemma corrupted_feed_is_not_rejected :
  option_map (fun row => Js.isNaN (Js.parseFloatOf (new_price row)))
    (nth_error corruptedFeed 2) = Some true
  /\ option_map finished (run (boot localOnlyWorld) corruptedLocalTrace)
     = Some [Resolved]
  /\ option_map errorsLogged (run (boot localOnlyWorld) corruptedLocalTrace)
     = Some []
  /\ option_map (fun sys => map message (logs sys))
       (run (boot localOnlyWorld) corruptedLocalTrace)
     = Some
         ["Starting price processing from S3 CSV";
          "S3 bucket not configured, skipping S3 processing";
          "Processing local CSV file";
          "Price updates processed successfully";
          "Successfully processed local CSV file";
          "Price processing completed successfully"].
Proof. repeat split; vm_compute; reflexivity. Qed.

(** Digits are read exactly when the text begins with one. *)
Lemma readDigits_no_digit s acc count :
  Js.startsWithDigit s = false -> Js.readDigits s acc count = (acc, count, s).
Proof.
  destruct s as [|c rest]; simpl; intros H; [reflexivity|].
  rewrite H. reflexivity.
Qed.

Lemma readDigits_count s : forall acc count,
  (count <= snd (fst (Js.readDigits s acc count)))%nat.
Proof.
  induction s as [|c rest IH]; simpl; intros acc count; [lia|].
  destruct (Js.isDigit c); simpl; [|lia].
  specialize (IH (acc * 10 + Js.digitValue c)%N (S count)). lia.
Qed.

Lemma readDigits_digit s acc count :
  Js.startsWithDigit s = true ->
  (count < snd (fst (Js.readDigits s acc count)))%nat.
Proof.
  destruct s as [|c rest]; simpl; [discriminate|]. intros ->.
  pose proof (readDigits_count rest (acc * 10 + Js.digitValue c)%N (S count)).
  lia.
Qed.

(** [parseFloat] gives NaN exactly for the texts without a numeric
    prefix. *)
Lemma isNaN_parseFloat input :
  Js.isNaN (Js.parseFloat input) = negb (Js.hasNumericPrefix input).
Proof.
  unfold Js.parseFloat, Js.hasNumericPrefix.
  destruct (Js.readSign (Js.trimStart input)) as [neg s1]. cbn [snd].
  destruct (String.prefix "Infinity" s1); [reflexivity|]. cbn [orb].
  destruct (Js.startsWithDigit s1) eqn:D.
  - pose proof (readDigits_digit s1 0%N 0 D) as H.
    destruct (Js.readDigits s1 0%N 0) as [[ip ni] s2]. cbn [fst snd] in H.
    destruct (match s2 with
              | String "." rest => Js.readDigits rest ip 0
              | _ => (ip, 0, s2)
              end) as [[m nf] s3].
    replace (ni + nf =? 0)%nat with false
      by (symmetry; apply Nat.eqb_neq; lia).
    reflexivity.
  - rewrite (readDigits_no_digit s1 0%N 0 D). cbn [orb].
    destruct s1 as [|c rest]; [reflexivity|].
    destruct c as [[] [] [] [] [] [] [] []]; try reflexivity.
    destruct (Js.startsWithDigit rest) eqn:R.
    + pose proof (readDigits_digit rest 0%N 0 R) as H.
      destruct (Js.readDigits rest 0%N 0) as [[m nf] s3]. cbn [fst snd] in H.
      replace (0 + nf =? 0)%nat with false
        by (symmetry; apply Nat.eqb_neq; lia).
      reflexivity.
    + rewrite (readDigits_no_digit rest 0%N 0 R). reflexivity.
Qed.

Lemma isNaN_parseFloatOf value :
  Js.isNaN (Js.parseFloatOf value) = negb (Js.hasNumericPrefixOf value).
Proof. destruct value as [s|]; [apply isNaN_parseFloat|reflexivity]. Qed.

(** C4, amended: whatever the rows of a feed file hold in their price
    field, parsing does not fail on any of them: every row becomes one
    record, in the order of the file, whose [newPrice] is [parseFloat] of
    the field.  That is NaN exactly when the field is missing or has no
    numeric prefix (after the leading white space and one optional sign
    it begins neither with a digit, nor with a dot and a digit, nor with
    [Infinity]) and the number of the prefix otherwise: [12abc] gives 12
    and [1,500.00] gives 1.  At the end of the stream the whole batch goes
    to [processUpdatesConcurrently] and the promise of [processCSVStream]
    resolves, with no error logged. *)
Theorem parse_keeps_every_row w src rows :
  exists sysE,
    run (invoke (processCSVStream src) (boot w)) (dataEvents 0 rows)
    = Some (with_pool
              [Listen src (map (recordOf (now w)) rows)
                 onDataRow onStreamEnd onStreamError]
              (invoke (processCSVStream src) (boot w)))
    /\ run (invoke (processCSVStream src) (boot w))
         (dataEvents 0 rows ++ [LWake 0 WEnd; LWake 0 WTick])%list
       = Some sysE
    /\ finished sysE = [Resolved]
    /\ pool sysE = []
    /\ errorsLogged sysE = []
    /\ logs sysE
       = logs (fst (exec (processUpdatesConcurrently
                            (map (recordOf (now w)) rows)) (boot w)))
    /\ List.length (map (recordOf (now w)) rows) = List.length rows
    /\ (forall i row, nth_error rows i = Some row ->
          exists u, nth_error (map (recordOf (now w)) rows) i = Some u
                    /\ vehicleId u = vehicle_id row
                    /\ newPrice u = Js.parseFloatOf (new_price row)
                    /\ Js.isNaN (newPrice u)
                       = negb (Js.hasNumericPrefixOf (new_price row)))
    /\ Js.parseFloat "12abc" = Js.Finite false 12 0
    /\ Js.parseFloat "1,500.00" = Js.Finite false 1 0
    /\ Js.parseFloat "abc" = Js.NaN.
Proof.
  assert (D : run (invoke (processCSVStream src) (boot w)) (dataEvents 0 rows)
              = Some (with_pool
                        [Listen src (map (recordOf (now w)) rows)
                           onDataRow onStreamEnd onStreamError]
                        (invoke (processCSVStream src) (boot w)))).
  { rewrite (run_dataEvents rows _ src [] onStreamEnd onStreamError)
      by reflexivity.
    reflexivity. }
  rewrite run_app, D.
  assert (N : forall i row, nth_error rows i = Some row ->
          exists u, nth_error (map (recordOf (now w)) rows) i = Some u
                    /\ vehicleId u = vehicle_id row
                    /\ newPrice u = Js.parseFloatOf (new_price row)
                    /\ Js.isNaN (newPrice u)
                       = negb (Js.hasNumericPrefixOf (new_price row))).
  { intros i row I. exists (recordOf (now w) row).
    split; [rewrite nth_error_map, I; reflexivity|].
    split; [reflexivity|]. split; [reflexivity|]. apply isNaN_parseFloatOf. }
  assert (Len : List.length (map (recordOf (now w)) rows) = List.length rows)
    by apply length_map.
  unfold processUpdatesConcurrently.
  destruct (map (recordOf (now w)) rows) as [|u us] eqn:M.
  - eexists. split; [reflexivity|]. split; [reflexivity|].
    simpl. repeat split; auto.
  - eexists. split; [reflexivity|]. split; [reflexivity|].
    simpl. repeat split; auto.
Qed.

(** C8, as stated, fails: the row ["v1", "-5"] becomes a record whose
    [newPrice] is -5, which is not a non-negative decimal. *)
Lemma negative_price_is_kept :
  exists u,
    onDataRow [] negativeRow (now sampleWorld) = [u]
    /\ newPrice u = Js.Finite true 5 0
    /\ Js.nonNegativeDecimal (newPrice u) = false.
Proof. eexists. repeat split. Qed.

(** C8, amended: a data row that reaches the parser becomes one record at
    the end of the batch, whose [newPrice] is what [parseFloat] reads in
    the row's [new_price] column, be it negative or NaN, whose [vehicleId]
    is the row's [vehicle_id] column, and whose [timestamp] is the clock
    at the moment the row is parsed, not a value of the row. *)
Theorem row_becomes_record sys i src updates onEnd onError row :
  nth_error (pool sys) i = Some (Listen src updates onDataRow onEnd onError) ->
  exists u,
    wake i (WData row) sys
    = Some (with_pool
              (replaceAt i
                 (Some (Listen src (updates ++ [u])%list onDataRow onEnd onError))
                 (pool sys))
              sys)
    /\ vehicleId u = vehicle_id row
    /\ newPrice u = Js.parseFloatOf (new_price row)
    /\ timestamp u = now (world sys).
Proof.
  intros P. exists (recordOf (now (world sys)) row).
  unfold wake. rewrite P. simpl. repeat split.
Qed.

Lemma row_becomes_record_witness :
  exists u,
    wake 0 (WData negativeRow)
      (invoke (processCSVStream (LocalStream localPath)) (boot sampleWorld))
    = Some (with_pool
              [Listen (LocalStream localPath) [u]
                 onDataRow onStreamEnd onStreamError]
              (invoke (processCSVStream (LocalStream localPath))
                 (boot sampleWorld)))
    /\ vehicleId u = Some "v1"
    /\ newPrice u = Js.parseFloatOf (Some "-5")
    /\ timestamp u = 1700000000000%Z.
Proof.
  apply (row_becomes_record
           (invoke (processCSVStream (LocalStream localPath)) (boot sampleWorld))
           0 (LocalStream localPath) [] onStreamEnd onStreamError negativeRow).
  reflexivity.
Defined.

(** *** Choosing the remote feed *)

Lemma insert_not_nil {A : Type} (cmp : A -> A -> Z) x l :
  Js.insert cmp x l <> [].
Proof. destruct l; simpl; [|destruct (cmp x a <=? 0)%Z]; discriminate. Qed.

Lemma sort_nil {A : Type} (cmp : A -> A -> Z) l :
  Js.sort cmp l = [] -> l = [].
Proof.
  destruct l; simpl; intros H; [reflexivity|].
  now apply insert_not_nil in H.
Qed.

(** The head of the sorted array is the first of the newest objects. *)
Lemma sort_head_first_newest objs : forall obj,
  hd_error (Js.sort byLastModifiedDesc objs) = Some obj ->
  FirstNewest objs obj.
Proof.
  induction objs as [|x xs IH]; simpl; intros obj H; [discriminate|].
  destruct (Js.sort byLastModifiedDesc xs) as [|y ys] eqn:S.
  - apply sort_nil in S. subst xs. simpl in H. injection H as <-.
    exists [], []. repeat split; constructor.
  - simpl in H. specialize (IH y eq_refl).
    destruct IH as (before & after & E & B & A).
    unfold byLastModifiedDesc in H.
    destruct (getTimeOr0 y - getTimeOr0 x <=? 0)%Z eqn:C;
      simpl in H; injection H as <-.
    + apply Z.leb_le in C. exists [], xs. split; [reflexivity|].
      split; [constructor|]. subst xs. apply Forall_app. split.
      * eapply Forall_impl; [|exact B]. simpl. intros. lia.
      * constructor; [lia|].
        eapply Forall_impl; [|exact A]. simpl. intros. lia.
    + apply Z.leb_gt in C. exists (x :: before), after. subst xs.
      split; [reflexivity|]. split; [|exact A].
      constructor; [lia|exact B].
Qed.

Lemma truthy_some value key : truthy value = Some key -> value = Some key.
Proof. destruct value as [[|c k]|]; simpl; congruence. Qed.

Lemma selectedStream_first_newest b0 listing b key :
  In (OpenStream (S3Stream b key)) (selectedStream b0 (Js.Fulfilled listing)) ->
  exists contents obj,
    Contents listing = Some contents
    /\ Key obj = Some key
    /\ FirstNewest (filter isCsv contents) obj.
Proof.
  unfold selectedStream.
  destruct (Contents listing) as [contents|]; [|contradiction].
  destruct (latestFile contents) as [obj|] eqn:L; [|contradiction].
  destruct (truthy (Key obj)) as [k|] eqn:T; [|contradiction].
  intros [H|[]]. injection H as _ <-.
  exists contents, obj. split; [reflexivity|].
  split; [now apply truthy_some|]. now apply sort_head_first_newest.
Qed.

(** What a run that starts in an idle process sends once it has the
    answer to its listing. *)
Lemma listing_requests sys r sys' :
  service sys = newService -> pool sys = [] ->
  run sys [LCall; LWake 0 (WList r)] = Some sys' ->
  exists b,
    truthy (AWS_S3_BUCKET (world sys)) = Some b
    /\ requests sys'
       = (requests sys
          ++ ListObjects b "price-updates/" :: selectedStream b r)%list.
Proof.
  intros Idle Pool. simpl. unfold invoke, startProcessing. simpl.
  rewrite Idle. simpl. autounfold with async. simpl.
  destruct (truthy (AWS_S3_BUCKET (world sys))) as [b|] eqn:T; simpl;
    unfold wake; simpl; rewrite Pool; simpl; [|discriminate].
  intros H. exists b. split; [reflexivity|]. revert H.
  destruct r as [out|e]; simpl.
  - destruct (Contents out) as [[|o contents]|]; simpl.
    + intros H. injection H as <-. reflexivity.
    + destruct (latestFile (o :: contents)) as [obj|]; simpl.
      * destruct (truthy (Key obj)) as [key|]; simpl;
          intros H; injection H as <-; simpl;
          try rewrite <- app_assoc; reflexivity.
      * intros H. injection H as <-. reflexivity.
    + intros H. injection H as <-. reflexivity.
  - destruct e; simpl; intros H; injection H as <-; reflexivity.
Qed.

(** C7: two runs that get the same listing from the same bucket send the
    same requests, so they open the same object; and the object they open
    is the first, in the order of the listing, of the CSV objects with the
    greatest modification time: objects with equal times are told apart by
    their place in the listing. *)
Theorem latest_file_selection_is_deterministic
    sys1 sys2 listing sys1' sys2' :
  Reachable sys1 -> Reachable sys2 ->
  pool sys1 = [] -> pool sys2 = [] ->
  AWS_S3_BUCKET (world sys1) = AWS_S3_BUCKET (world sys2) ->
  run sys1 [LCall; LWake 0 (WList (Js.Fulfilled listing))] = Some sys1' ->
  run sys2 [LCall; LWake 0 (WList (Js.Fulfilled listing))] = Some sys2' ->
  exists sent,
    requests sys1' = (requests sys1 ++ sent)%list
    /\ requests sys2' = (requests sys2 ++ sent)%list
    /\ forall b key,
         In (OpenStream (S3Stream b key)) sent ->
         exists contents obj,
           Contents listing = Some contents
           /\ Key obj = Some key
           /\ FirstNewest (filter isCsv contents) obj.
Proof.
  intros R1 R2 P1 P2 B Run1 Run2.
  assert (Idle : forall sys, Reachable sys -> pool sys = [] ->
                             service sys = newService).
  { intros sys R P.
    destruct (inv_state _ (reachable_inv _ R)) as [[S _]|(_ & t & Pt & _)];
      [exact S|rewrite P in Pt; discriminate]. }
  destruct (listing_requests sys1 _ sys1' (Idle _ R1 P1) P1 Run1)
    as (b1 & T1 & Q1).
  destruct (listing_requests sys2 _ sys2' (Idle _ R2 P2) P2 Run2)
    as (b2 & T2 & Q2).
  rewrite B, T2 in T1. injection T1 as <-.
  exists (ListObjects b2 "price-updates/"
          :: selectedStream b2 (Js.Fulfilled listing)).
  repeat split; auto.
  intros b key [H|H]; [discriminate|].
  now apply selectedStream_first_newest in H.
Qed.


Lemma latest_file_selection_is_deterministic_witness :
  exists sent,
    requests (after (boot sampleWorld)
                [LCall; LWake 0 (WList (Js.Fulfilled remoteListing))])
    = (requests (boot sampleWorld) ++ sent)%list
    /\ requests (after (boot laterWorld)
                   [LCall; LWake 0 (WList (Js.Fulfilled remoteListing))])
       = (requests (boot laterWorld) ++ sent)%list
    /\ forall b key,
         In (OpenStream (S3Stream b key)) sent ->
         exists contents obj,
           Contents remoteListing = Some contents
           /\ Key obj = Some key
           /\ FirstNewest (filter isCsv contents) obj.
Proof.
  apply (latest_file_selection_is_deterministic
           (boot sampleWorld) (boot laterWorld) remoteListing
           (after (boot sampleWorld)
                [LCall; LWake 0 (WList (Js.Fulfilled remoteListing))])
           (after (boot laterWorld)
                   [LCall; LWake 0 (WList (Js.Fulfilled remoteListing))])).
  - exists sampleWorld, []. reflexivity.
  - exists laterWorld, []. reflexivity.
  - reflexivity.
  - reflexivity.
  - reflexivity.
  - reflexivity.
  - reflexivity.
Defined.

(** In [remoteListing] the two newest CSV objects have the same
    modification time; the one listed first is chosen. *)
Example latestFile_tie :
  option_map Key (match Contents remoteListing with
                  | Some contents => latestFile contents
                  | None => None
                  end)
  = Some (Some "price-updates/2023-11-14-a.csv").
Proof. vm_compute; reflexivity. Qed.

(** *** Every run can come to its end *)

Lemma exec_with_pool {A : Type} (m : Async A) : forall p sys,
  exec m (with_pool p sys)
  = (with_pool p (fst (exec m sys)), snd (exec m sys)).
Proof.
  induction m as [a|e|k IH|f k IH|entry k IH|k IH|src k IH|k IH
                 |b q k IH|i q k IH|src us onData onEnd IHe onError IHr];
    simpl; intros p sys; try reflexivity.
  - apply IH.
  - apply (IH p (with_service f sys)).
  - apply (IH p (with_log entry sys)).
  - apply IH.
  - apply (IH p (with_request (OpenStream src) sys)).
Qed.

Lemma exec_pool {A : Type} (m : Async A) : forall sys,
  pool (fst (exec m sys)) = pool sys.
Proof.
  induction m as [a|e|k IH|f k IH|entry k IH|k IH|src k IH|k IH
                 |b q k IH|i q k IH|src us onData onEnd IHe onError IHr];
    simpl; intros sys; try reflexivity.
  - apply IH.
  - apply (IH (with_service f sys)).
  - apply (IH (with_log entry sys)).
  - apply IH.
  - apply (IH (with_request (OpenStream src) sys)).
Qed.

(** Waking the only suspended call with an event it waits for is calling
    the code it goes on with. *)
Lemma wake_single t ev k sys :
  pool sys = [] ->
  resume t ev (now (world sys)) = Some k ->
  wake 0 ev (with_pool [t] sys) = Some (invoke k sys).
Proof.
  intros P R. unfold wake, invoke. simpl. rewrite R.
  rewrite exec_with_pool. pose proof (exec_pool k sys) as Q.
  destruct (exec k sys) as [sys1 t1]. simpl in *. rewrite P in Q.
  destruct sys1 as [w s l r p f]. simpl in Q. subst p.
  destruct (leftover t1) as [[t2|] [o|]]; reflexivity.
Qed.

Lemma invoke_can_settle (m : Async unit) : forall sys,
  pool sys = [] ->
  exists trace sys', run (invoke m sys) trace = Some sys' /\ pool sys' = [].
Proof.
  assert (Susp : forall t ev k sys,
             pool sys = [] -> leftover t = (Some t, None) ->
             resume t ev (now (world sys)) = Some k ->
             exec t sys = (sys, t) ->
             (exists trace sys',
                 run (invoke k sys) trace = Some sys' /\ pool sys' = []) ->
             exists trace sys',
               run (invoke t sys) trace = Some sys' /\ pool sys' = []).
  { intros t ev k sys P L R E (trace & sys' & Run & Done).
    exists (LWake 0 ev :: trace), sys'. split; [|exact Done].
    unfold invoke at 1. rewrite E, L. simpl. rewrite P. simpl.
    rewrite (wake_single t ev k sys P R). exact Run. }
  induction m as [a|e|k IH|f k IH|entry k IH|k IH|src k IH|k IH
                 |b q k IH|i q k IH|src us onData onEnd IHe onError IHr];
    intros sys P.
  - exists [], (invoke (Ret a) sys). split; [reflexivity|exact P].
  - exists [], (invoke (Throw e) sys). split; [reflexivity|exact P].
  - apply (IH (service sys) sys P).
  - apply (IH (with_service f sys) P).
  - apply (IH (with_log entry sys) P).
  - apply (IH (world sys) sys P).
  - apply (IH (with_request (OpenStream src) sys) P).
  - apply (Susp (Tick k) WTick k sys P); try reflexivity. apply IH, P.
  - destruct (IH (Js.Rejected (Js.ErrorObj EmptyString))
                (with_request (ListObjects b q) sys) P)
      as (trace & sys' & Run & Done).
    exists (LWake 0 (WList (Js.Rejected (Js.ErrorObj EmptyString))) :: trace),
      sys'.
    split; [|exact Done]. unfold invoke at 1. simpl. rewrite P. simpl.
    rewrite (wake_single (AwaitList b q k)
               (WList (Js.Rejected (Js.ErrorObj EmptyString)))
               (k (Js.Rejected (Js.ErrorObj EmptyString)))
               (with_request (ListObjects b q) sys) P eq_refl).
    exact Run.
  - destruct (IH (Js.Fulfilled true)
                (with_request (UpdatePrice i q) sys) P)
      as (trace & sys' & Run & Done).
    exists (LWake 0 (WUpdated (Js.Fulfilled true)) :: trace), sys'.
    split; [|exact Done]. unfold invoke at 1. simpl. rewrite P. simpl.
    rewrite (wake_single (AwaitUpdatePrice i q k)
               (WUpdated (Js.Fulfilled true)) (k (Js.Fulfilled true))
               (with_request (UpdatePrice i q) sys) P eq_refl).
    exact Run.
  - apply (Susp (Listen src us onData onEnd onError) WEnd (onEnd us) sys P);
      try reflexivity.
    apply IHe, P.
Qed.

(** Supporting C5: from every reachable state some sequence of events
    brings the run in progress, if there is one, to its end. *)
Lemma every_run_can_settle sys :
  Reachable sys ->
  exists trace sys',
    run sys trace = Some sys' /\ pool sys' = []
    /\ isCurrentlyProcessing (service sys') = false.
Proof.
  intros R.
  assert (Done : forall sys0, Reachable sys0 -> pool sys0 = [] ->
                   isCurrentlyProcessing (service sys0) = false).
  { intros sys0 R0 P0.
    destruct (inv_state _ (reachable_inv _ R0)) as [[S _]|(_ & t & Pt & _)];
      [unfold isCurrentlyProcessing; rewrite S; reflexivity
      |rewrite P0 in Pt; discriminate]. }
  assert (Ext : forall trace sys', run sys trace = Some sys' -> Reachable sys').
  { intros trace sys' Run. destruct R as (w & tr0 & R).
    exists w, (tr0 ++ trace)%list. rewrite run_app, R. exact Run. }
  destruct (inv_state _ (reachable_inv _ R)) as [[_ P]|(_ & t & P & Su & _)].
  - exists [], sys. repeat split; auto.
  - assert (E : sys = with_pool [t] (with_pool [] sys))
      by (rewrite <- P; destruct sys; reflexivity).
    assert (W : exists ev k,
               resume t ev (now (world (with_pool [] sys))) = Some k).
    { destruct t; simpl in Su; try contradiction.
      - exists WTick. eexists. reflexivity.
      - exists (WList (Js.Rejected (Js.ErrorObj EmptyString))). eexists.
        reflexivity.
      - exists (WUpdated (Js.Fulfilled true)). eexists. reflexivity.
      - exists WEnd. eexists. reflexivity. }
    destruct W as (ev & k & Rk).
    destruct (invoke_can_settle k (with_pool [] sys) eq_refl)
      as (trace & sys' & Run & P').
    assert (Run' : run sys (LWake 0 ev :: trace) = Some sys').
    { simpl. rewrite E at 1.
      rewrite (wake_single t ev k (with_pool [] sys) eq_refl Rk). exact Run. }
    exists (LWake 0 ev :: trace), sys'. repeat split; auto.
    apply Done; [|exact P']. eapply Ext. exact Run'.
Qed.

(** *** The built-ins on sample values *)

Example parseFloat_plain : Js.parseFloat "18000.50" = Js.Finite false 1800050 (-2).
Proof. reflexivity. Qed.

Example parseFloat_negative : Js.parseFloat " -5" = Js.Finite true 5 0.
Proof. reflexivity. Qed.

Example parseFloat_prefix : Js.parseFloat "12abc" = Js.Finite false 12 0.
Proof. reflexivity. Qed.

Example parseFloat_exponent : Js.parseFloat "1.5e3x" = Js.Finite false 15 2.
Proof. reflexivity. Qed.

Example parseFloat_text : Js.parseFloat "abc" = Js.NaN.
Proof. reflexivity. Qed.

Example parseFloat_empty : Js.parseFloat EmptyString = Js.NaN.
Proof. reflexivity. Qed.

Example endsWith_csv : Js.endsWith "price-updates/a.csv" ".csv" = true.
Proof. reflexivity. Qed.

Example endsWith_short : Js.endsWith "csv" ".csv" = false.
Proof. reflexivity. Qed.

(** ** Further properties of the price processor and its callers *)

Lemma idle_of_reachable sys :
  Reachable sys -> pool sys = [] -> service sys = newService.
Proof.
  intros R P.
  destruct (inv_state _ (reachable_inv _ R)) as [[S _]|(_ & t & Pt & _)];
    [exact S|rewrite P in Pt; discriminate].
Qed.

(** Wherever the process can be observed, at most one run of
    [startProcessing()] is unresolved, and [getProcessingStatus()] reports
    [isProcessing] exactly when there is one. *)
Theorem at_most_one_run sys :
  Reachable sys ->
  List.length (pool sys) <= 1
  /\ (status_isProcessing (getProcessingStatus (service sys)) = true
      <-> pool sys <> []).
Proof.
  intros R.
  destruct (inv_state _ (reachable_inv _ R)) as [[S P]|(S & t & P & _)];
    rewrite S, P; simpl; (split; [auto|]); split; intros H;
    try discriminate; try reflexivity.
  now contradiction H.
Qed.

Lemma at_most_one_run_witness :
  List.length (pool (invoke startProcessing (boot sampleWorld))) <= 1
  /\ (status_isProcessing
        (getProcessingStatus
           (service (invoke startProcessing (boot sampleWorld)))) = true
      <-> pool (invoke startProcessing (boot sampleWorld)) <> []).
Proof.
  apply (at_most_one_run (invoke startProcessing (boot sampleWorld))).
  exists sampleWorld, [LCall]. reflexivity.
Defined.

(** The promise of [startProcessing()] never rejects: every call that has
    settled, whatever its run met, has resolved. *)
Theorem startProcessing_never_rejects sys :
  Reachable sys ->
  Forall (fun outcome => outcome = Resolved) (finished sys).
Proof.
  intros R.
  pose proof (inv_finished _ (reachable_inv _ R)) as F.
  rewrite Forall_forall in *. intros o I. symmetry. now apply F.
Qed.

Lemma startProcessing_never_rejects_witness :
  Forall (fun outcome => outcome = Resolved)
    (finished
       (after (boot sampleWorld)
          [LCall;
           LWake 0 (WList (Js.Rejected (Js.ErrorObj "connect ETIMEDOUT")));
           LWake 0 WTick])).
Proof.
  apply (startProcessing_never_rejects
           (after (boot sampleWorld)
              [LCall;
               LWake 0 (WList (Js.Rejected (Js.ErrorObj "connect ETIMEDOUT")));
               LWake 0 WTick])).
  exists sampleWorld,
    [LCall;
     LWake 0 (WList (Js.Rejected (Js.ErrorObj "connect ETIMEDOUT")));
     LWake 0 WTick].
  reflexivity.
Defined.

Lemma invoke_accepted_exact sys :
  service sys = newService -> pool sys = [] ->
  exists t,
    suspended t
    /\ invoke startProcessing sys
       = {| world := world sys; service := busy;
            logs := (logs sys ++ startingEntry ::
                       match truthy (AWS_S3_BUCKET (world sys)) with
                       | Some _ => []
                       | None => [bucketSkippedEntry]
                       end)%list;
            requests := (requests sys ++
                           match truthy (AWS_S3_BUCKET (world sys)) with
                           | Some b => [ListObjects b "price-updates/"]
                           | None => []
                           end)%list;
            pool := [t];
            finished := finished sys |}.
Proof.
  destruct sys as [w s l r p f]. simpl. intros -> ->.
  unfold invoke, startProcessing. simpl. autounfold with async. simpl.
  destruct (truthy (AWS_S3_BUCKET w)); simpl; unfold with_pool; simpl.
  - eexists. split; [|reflexivity]. exact I.
  - eexists. split; [|rewrite <- app_assoc, app_nil_r; reflexivity]. exact I.
Qed.

(** The scheduled job (the cron callback of index.ts) does nothing at all,
    not even logging, while a run is in progress; otherwise it logs
    'Starting scheduled price processing' and starts one run, which is
    suspended when the callback returns. *)
Theorem scheduler_skips_or_starts sys :
  Reachable sys ->
  if isCurrentlyProcessing (service sys) then scheduledTick sys = sys
  else
    exists t,
      pool (scheduledTick sys) = [t] /\ suspended t
      /\ service (scheduledTick sys) = busy
      /\ finished (scheduledTick sys) = finished sys
      /\ logs (scheduledTick sys)
         = (logs sys ++ scheduledEntry :: startingEntry ::
              match truthy (AWS_S3_BUCKET (world sys)) with
              | Some _ => []
              | None => [bucketSkippedEntry]
              end)%list.
Proof.
  intros R. unfold scheduledTick.
  destruct (isCurrentlyProcessing (service sys)) eqn:P; simpl; [reflexivity|].
  destruct (inv_state _ (reachable_inv _ R)) as [[S Pl]|(S & _)];
    [|unfold isCurrentlyProcessing in P; rewrite S in P; discriminate].
  destruct (invoke_accepted_exact (with_log scheduledEntry sys) S Pl)
    as (t & Su & E).
  fold scheduledEntry. rewrite E. simpl. exists t.
  repeat split; auto. rewrite <- app_assoc. reflexivity.
Qed.

Lemma scheduler_skips_or_starts_witness :
  if isCurrentlyProcessing (service (boot localOnlyWorld)) then
    scheduledTick (boot localOnlyWorld) = boot localOnlyWorld
  else
    exists t,
      pool (scheduledTick (boot localOnlyWorld)) = [t] /\ suspended t
      /\ service (scheduledTick (boot localOnlyWorld)) = busy
      /\ finished (scheduledTick (boot localOnlyWorld))
         = finished (boot localOnlyWorld)
      /\ logs (scheduledTick (boot localOnlyWorld))
         = (logs (boot localOnlyWorld) ++ scheduledEntry :: startingEntry ::
              match truthy (AWS_S3_BUCKET (world (boot localOnlyWorld))) with
              | Some _ => []
              | None => [bucketSkippedEntry]
              end)%list.
Proof.
  apply (scheduler_skips_or_starts (boot localOnlyWorld)).
  exists localOnlyWorld, []. reflexivity.
Defined.

(** When no run is in progress the administrative trigger answers 200
    'Price processing started', and a second trigger sent before that run
    has ended answers 409 and changes nothing. *)
Theorem second_trigger_conflicts sys :
  Reachable sys ->
  isCurrentlyProcessing (service sys) = false ->
  fst (triggerPriceProcessing sys) = startedResponse
  /\ triggerPriceProcessing (snd (triggerPriceProcessing sys))
     = (conflictResponse, snd (triggerPriceProcessing sys)).
Proof.
  intros R P.
  destruct (inv_state _ (reachable_inv _ R)) as [[S Pl]|(S & _)];
    [|unfold isCurrentlyProcessing in P; rewrite S in P; discriminate].
  unfold triggerPriceProcessing at 1 3 4. rewrite P. simpl.
  destruct (invoke_accepted_exact sys S Pl) as (t & Su & E).
  split; [reflexivity|].
  unfold triggerPriceProcessing. rewrite E. reflexivity.
Qed.

Lemma second_trigger_conflicts_witness :
  fst (triggerPriceProcessing (boot sampleWorld)) = startedResponse
  /\ triggerPriceProcessing (snd (triggerPriceProcessing (boot sampleWorld)))
     = (conflictResponse, snd (triggerPriceProcessing (boot sampleWorld))).
Proof.
  apply (second_trigger_conflicts (boot sampleWorld)).
  - exists sampleWorld, []. reflexivity.
  - reflexivity.
Defined.

Ltac normalize_lists :=
  repeat rewrite <- app_assoc; simpl; try reflexivity.

Lemma System_ext (a b : System) :
  world a = world b -> service a = service b -> logs a = logs b ->
  requests a = requests b -> pool a = pool b -> finished a = finished b ->
  a = b.
Proof. destruct a, b; simpl; intros; subst; reflexivity. Qed.

Lemma local_run_phases w l r f rows :
  truthy (AWS_S3_BUCKET w) = None ->
  localCsvExists w = true ->
  exists onEnd onError,
    HandsOverBatch onEnd
    /\ (forall rest,
          run {| world := w; service := newService; logs := l;
                 requests := r; pool := []; finished := f |}
            ([LCall; LWake 0 WTick] ++ dataEvents 0 rows ++ rest)%list
          = run {| world := w; service := busy;
                   logs := (l ++ [startingEntry; bucketSkippedEntry;
                                  infoEntry "Processing local CSV file"])%list;
                   requests := (r ++ [OpenStream (LocalStream localPath)])%list;
                   pool := [Listen (LocalStream localPath)
                              (map (recordOf (now w)) rows)
                              onDataRow onEnd onError];
                   finished := f |} rest)
    /\ run {| world := w; service := busy;
              logs := (l ++ [startingEntry; bucketSkippedEntry;
                             infoEntry "Processing local CSV file"])%list;
              requests := (r ++ [OpenStream (LocalStream localPath)])%list;
              pool := [Listen (LocalStream localPath)
                         (map (recordOf (now w)) rows)
                         onDataRow onEnd onError];
              finished := f |}
         [LWake 0 WEnd; LWake 0 WTick; LWake 0 WTick; LWake 0 WTick]
       = Some {| world := w; service := newService;
                 logs := (l ++
                          [startingEntry; bucketSkippedEntry;
                           infoEntry "Processing local CSV file";
                           batchEntry (map (recordOf (now w)) rows);
                           infoEntry "Successfully processed local CSV file";
                           infoEntry "Price processing completed successfully"])%list;
                 requests := (r ++ [OpenStream (LocalStream localPath)])%list;
                 pool := []; finished := (f ++ [Resolved])%list |}.
Proof.
  intros T L. do 2 eexists. split; [|split].
  2:{ intros rest. simpl.
      unfold invoke, startProcessing. simpl. autounfold with async. simpl.
      rewrite T. simpl. unfold wake at 1. simpl. rewrite L. simpl.
      rewrite run_app. erewrite run_dataEvents by reflexivity.
      unfold with_pool. simpl. repeat rewrite <- app_assoc. simpl.
      reflexivity. }
  - intros us st. simpl. unfold processUpdatesConcurrently.
    destruct (Datatypes.length us =? 0)%nat; reflexivity.
  - simpl. unfold wake. simpl.
    destruct (map (recordOf (now w)) rows) as [|u us]; simpl;
      f_equal; apply System_ext; simpl; normalize_lists.
Qed.

(** With no bucket configured and a local file, a run warns that S3 is
    skipped and opens data/price-updates.csv as its only request.  Once
    the rows of the file have arrived, the array of the listener holds
    one record per row, all of them, in the order of the file; at the end
    of the stream the ['end'] handler hands the array it is given to
    [processUpdatesConcurrently], in one batch; the run then logs the two
    success entries and resolves, the service being idle again. *)
Theorem local_file_is_read_when_bucket_missing sys rows :
  Reachable sys -> pool sys = [] ->
  truthy (AWS_S3_BUCKET (world sys)) = None ->
  localCsvExists (world sys) = true ->
  exists mid onEnd onError sys',
    run sys ([LCall; LWake 0 WTick] ++ dataEvents 0 rows)%list = Some mid
    /\ pool mid
       = [Listen (LocalStream localPath)
            (map (recordOf (now (world sys))) rows) onDataRow onEnd onError]
    /\ requests mid
       = (requests sys ++ [OpenStream (LocalStream localPath)])%list
    /\ HandsOverBatch onEnd
    /\ run mid [LWake 0 WEnd; LWake 0 WTick; LWake 0 WTick; LWake 0 WTick]
       = Some sys'
    /\ run sys ([LCall; LWake 0 WTick] ++ dataEvents 0 rows
                ++ [LWake 0 WEnd; LWake 0 WTick; LWake 0 WTick; LWake 0 WTick])%list
       = Some sys'
    /\ pool sys' = [] /\ service sys' = newService
    /\ finished sys' = (finished sys ++ [Resolved])%list
    /\ requests sys' = (requests sys ++ [OpenStream (LocalStream localPath)])%list
    /\ logs sys'
       = (logs sys ++
          [startingEntry; bucketSkippedEntry;
           infoEntry "Processing local CSV file";
           batchEntry (map (recordOf (now (world sys))) rows);
           infoEntry "Successfully processed local CSV file";
           infoEntry "Price processing completed successfully"])%list.
Proof.
  intros R P T L. pose proof (idle_of_reachable sys R P) as S.
  destruct sys as [w s l r p f]. simpl in P, T, L, S. subst s p.
  cbn [world logs requests finished pool service].
  destruct (local_run_phases w l r f rows T L)
    as (onEnd & onError & Hand & Mid & End).
  eexists. exists onEnd, onError. eexists.
  split.
  { rewrite <- (app_nil_r (dataEvents 0 rows)). rewrite Mid. reflexivity. }
  split; [reflexivity|]. split; [reflexivity|]. split; [exact Hand|].
  split; [exact End|]. split; [rewrite Mid; exact End|].
  repeat split.
Qed.

Lemma local_file_is_read_when_bucket_missing_witness :
  exists mid onEnd onError sys',
    run (boot localOnlyWorld)
      ([LCall; LWake 0 WTick] ++ dataEvents 0 localFeed)%list = Some mid
    /\ pool mid
       = [Listen (LocalStream localPath)
            (map (recordOf (now (world (boot localOnlyWorld)))) localFeed)
            onDataRow onEnd onError]
    /\ requests mid
       = (requests (boot localOnlyWorld)
          ++ [OpenStream (LocalStream localPath)])%list
    /\ HandsOverBatch onEnd
    /\ run mid [LWake 0 WEnd; LWake 0 WTick; LWake 0 WTick; LWake 0 WTick]
       = Some sys'
    /\ run (boot localOnlyWorld)
         ([LCall; LWake 0 WTick] ++ dataEvents 0 localFeed
          ++ [LWake 0 WEnd; LWake 0 WTick; LWake 0 WTick; LWake 0 WTick])%list
       = Some sys'
    /\ pool sys' = [] /\ service sys' = newService
    /\ finished sys' = (finished (boot localOnlyWorld) ++ [Resolved])%list
    /\ requests sys'
       = (requests (boot localOnlyWorld)
          ++ [OpenStream (LocalStream localPath)])%list
    /\ logs sys'
       = (logs (boot localOnlyWorld) ++
          [startingEntry; bucketSkippedEntry;
           infoEntry "Processing local CSV file";
           batchEntry
             (map (recordOf (now (world (boot localOnlyWorld)))) localFeed);
           infoEntry "Successfully processed local CSV file";
           infoEntry "Price processing completed successfully"])%list.
Proof.
  apply (local_file_is_read_when_bucket_missing (boot localOnlyWorld) localFeed).
  - exists localOnlyWorld, []. reflexivity.
  - reflexivity.
  - reflexivity.
  - reflexivity.
Defined.

(** When the csv parser the local file is piped into emits ['error']
    after some rows were read, those rows are dropped: no batch is handed
    over, the error is logged by [processFromLocal] and again by
    [startProcessing], and the promise of the run still resolves with the
    service idle.  (The handlers are attached to the parser: a failure of
    the file stream itself is not an event of the parser and reaches no
    handler.) *)
Theorem stream_error_discards_batch sys rows e :
  Reachable sys -> pool sys = [] ->
  truthy (AWS_S3_BUCKET (world sys)) = None ->
  localCsvExists (world sys) = true ->
  exists sys',
    run sys ([LCall; LWake 0 WTick] ++ dataEvents 0 rows
             ++ [LWake 0 (WError e); LWake 0 WTick; LWake 0 WTick])%list
    = Some sys'
    /\ pool sys' = [] /\ service sys' = newService
    /\ finished sys' = (finished sys ++ [Resolved])%list
    /\ logs sys'
       = (logs sys ++
          [startingEntry; bucketSkippedEntry;
           infoEntry "Processing local CSV file";
           localFailureEntry e; runFailureEntry e])%list.
Proof.
  intros R P T L. pose proof (idle_of_reachable sys R P) as S.
  destruct sys as [w s l r p f]. simpl in *. subst s p.
  simpl.
  unfold invoke, startProcessing. simpl. autounfold with async. simpl.
  rewrite T. simpl. unfold wake at 1. simpl. rewrite L. simpl.
  rewrite run_app. erewrite run_dataEvents by reflexivity. simpl.
  unfold wake. simpl.
  destruct e; simpl;
    eexists; (split; [reflexivity|]); simpl; repeat split;
    normalize_lists.
Qed.

Lemma stream_error_discards_batch_witness :
  exists sys',
    run (boot localOnlyWorld)
      ([LCall; LWake 0 WTick] ++ dataEvents 0 localFeed
       ++ [LWake 0 (WError (Js.ErrorObj "Row exceeds the maximum size"));
           LWake 0 WTick; LWake 0 WTick])%list
    = Some sys'
    /\ pool sys' = [] /\ service sys' = newService
    /\ finished sys' = (finished (boot localOnlyWorld) ++ [Resolved])%list
    /\ logs sys'
       = (logs (boot localOnlyWorld) ++
          [startingEntry; bucketSkippedEntry;
           infoEntry "Processing local CSV file";
           localFailureEntry (Js.ErrorObj "Row exceeds the maximum size");
           runFailureEntry (Js.ErrorObj "Row exceeds the maximum size")])%list.
Proof.
  apply (stream_error_discards_batch (boot localOnlyWorld) localFeed
           (Js.ErrorObj "Row exceeds the maximum size")).
  - exists localOnlyWorld, []. reflexivity.
  - reflexivity.
  - reflexivity.
  - reflexivity.
Defined.

(** With no bucket configured and no local file, a run sends no request
    at all, logs 'No local CSV file found' and still reports 'Price
    processing completed successfully'. *)
Theorem nothing_to_read sys :
  Reachable sys -> pool sys = [] ->
  truthy (AWS_S3_BUCKET (world sys)) = None ->
  localCsvExists (world sys) = false ->
  exists sys',
    run sys [LCall; LWake 0 WTick; LWake 0 WTick] = Some sys'
    /\ pool sys' = [] /\ service sys' = newService
    /\ finished sys' = (finished sys ++ [Resolved])%list
    /\ requests sys' = requests sys
    /\ logs sys'
       = (logs sys ++
          [startingEntry; bucketSkippedEntry;
           infoEntry "No local CSV file found";
           infoEntry "Price processing completed successfully"])%list.
Proof.
  intros R P T L. pose proof (idle_of_reachable sys R P) as S.
  destruct sys as [w s l r p f]. simpl in *. subst s p.
  unfold invoke, startProcessing. simpl. autounfold with async. simpl.
  rewrite T. simpl. unfold wake. simpl. rewrite L. simpl.
  eexists; (split; [reflexivity|]); simpl; repeat split; normalize_lists.
Qed.

Lemma nothing_to_read_witness :
  exists sys',
    run (boot noFilesWorld) [LCall; LWake 0 WTick; LWake 0 WTick] = Some sys'
    /\ pool sys' = [] /\ service sys' = newService
    /\ finished sys' = (finished (boot noFilesWorld) ++ [Resolved])%list
    /\ requests sys' = requests (boot noFilesWorld)
    /\ logs sys'
       = (logs (boot noFilesWorld) ++
          [startingEntry; bucketSkippedEntry;
           infoEntry "No local CSV file found";
           infoEntry "Price processing completed successfully"])%list.
Proof.
  apply (nothing_to_read (boot noFilesWorld)).
  - exists noFilesWorld, []. reflexivity.
  - reflexivity.
  - reflexivity.
  - reflexivity.
Defined.

Lemma insert_In {A : Type} (cmp : A -> A -> Z) x y l :
  In y (Js.insert cmp x l) <-> y = x \/ In y l.
Proof.
  induction l as [|z l IH]; simpl.
  - intuition.
  - destruct (cmp x z <=? 0)%Z; simpl; [intuition|].
    rewrite IH. intuition.
Qed.

Lemma sort_In {A : Type} (cmp : A -> A -> Z) y l :
  In y (Js.sort cmp l) <-> In y l.
Proof.
  induction l as [|x l IH]; simpl; [reflexivity|].
  rewrite insert_In, IH. intuition.
Qed.

Lemma latestFile_spec contents :
  (latestFile contents = None
   <-> forall obj, In obj contents -> isCsv obj = false)
  /\ (forall obj, latestFile contents = Some obj ->
        In obj contents
        /\ exists key, Key obj = Some key /\ Js.endsWith key ".csv" = true).
Proof.
  unfold latestFile. split; [split|].
  - intros H obj I. destruct (isCsv obj) eqn:C; [|reflexivity].
    assert (In obj (Js.sort byLastModifiedDesc (filter isCsv contents)))
      by (apply sort_In, filter_In; auto).
    destruct (Js.sort byLastModifiedDesc (filter isCsv contents));
      [contradiction|discriminate].
  - intros H.
    destruct (Js.sort byLastModifiedDesc (filter isCsv contents)) as [|o s] eqn:E;
      [reflexivity|].
    assert (I : In o (filter isCsv contents))
      by (apply (sort_In byLastModifiedDesc); rewrite E; now left).
    apply filter_In in I. destruct I as [I C].
    rewrite (H o I) in C. discriminate.
  - intros obj H.
    assert (I : In obj (filter isCsv contents)).
    { apply (sort_In byLastModifiedDesc).
      destruct (Js.sort byLastModifiedDesc (filter isCsv contents));
        [discriminate|]. injection H as <-. now left. }
    apply filter_In in I. destruct I as [I C]. split; [exact I|].
    unfold isCsv in C. destruct (Key obj) as [key|]; [|discriminate].
    exists key. auto.
Qed.

Lemma truthy_csv_key obj key :
  isCsv obj = true -> Key obj = Some key -> truthy (Key obj) = Some key.
Proof.
  unfold isCsv. intros C K. rewrite K in *.
  destruct key; [discriminate|reflexivity].
Qed.

(** The remote file [processFromS3] chooses: none exactly when the
    listing has no object whose key ends in '.csv'; otherwise an object of
    the listing whose key ends in '.csv' and that no other CSV object of
    the listing is newer than. *)
Theorem latestFile_picks_newest_csv contents :
  (latestFile contents = None
   <-> forall obj, In obj contents -> isCsv obj = false)
  /\ (forall obj, latestFile contents = Some obj ->
        In obj contents
        /\ (exists key, Key obj = Some key /\ Js.endsWith key ".csv" = true)
        /\ forall other, In other contents -> isCsv other = true ->
             (getTimeOr0 other <= getTimeOr0 obj)%Z).
Proof.
  destruct (latestFile_spec contents) as [N S]. split; [exact N|].
  intros obj L. destruct (S obj L) as [I K]. split; [exact I|].
  split; [exact K|]. intros other Io Csv.
  destruct (sort_head_first_newest _ _ L) as (before & later & E & Bf & Af).
  assert (F : In other (filter isCsv contents)) by (apply filter_In; auto).
  rewrite E in F. apply in_app_or in F. destruct F as [F|[F|F]].
  - rewrite Forall_forall in Bf. specialize (Bf _ F). lia.
  - subst. lia.
  - rewrite Forall_forall in Af. exact (Af _ F).
Qed.

(** When the listing of the bucket has no CSV object, [processFromS3]
    logs 'No CSV files found in S3 bucket', opens no remote stream, and
    the run goes on to the local file. *)
Theorem no_remote_csv_goes_to_local_file sys b out :
  Reachable sys -> pool sys = [] ->
  truthy (AWS_S3_BUCKET (world sys)) = Some b ->
  (forall contents, Contents out = Some contents ->
     forall obj, In obj contents -> isCsv obj = false) ->
  localCsvExists (world sys) = true ->
  exists sys' onEnd onError,
    run sys [LCall; LWake 0 (WList (Js.Fulfilled out)); LWake 0 WTick]
    = Some sys'
    /\ pool sys' = [Listen (LocalStream localPath) [] onDataRow onEnd onError]
    /\ requests sys'
       = (requests sys
          ++ [ListObjects b "price-updates/";
              OpenStream (LocalStream localPath)])%list
    /\ logs sys'
       = (logs sys ++
          [startingEntry; infoEntry "No CSV files found in S3 bucket";
           infoEntry "Processing local CSV file"])%list.
Proof.
  intros R P T N L. pose proof (idle_of_reachable sys R P) as S.
  destruct sys as [w s l r p f]. simpl in *. subst s p.
  unfold invoke, startProcessing. simpl. autounfold with async. simpl.
  rewrite T. simpl. unfold wake. simpl.
  assert (Done : forall contents, Contents out = Some contents ->
                   contents = [] \/ latestFile contents = None).
  { intros contents C. right.
    now apply (proj1 (latestFile_spec contents)), N. }
  destruct (Contents out) as [[|o contents]|]; simpl.
  - rewrite L. simpl.
    do 3 eexists; (split; [reflexivity|]); simpl; repeat split;
      normalize_lists.
  - destruct (Done _ eq_refl) as [D|D]; [discriminate|]. rewrite D. simpl.
    rewrite L. simpl.
    do 3 eexists; (split; [reflexivity|]); simpl; repeat split;
      normalize_lists.
  - rewrite L. simpl.
    do 3 eexists; (split; [reflexivity|]); simpl; repeat split;
      normalize_lists.
Qed.

Lemma no_remote_csv_goes_to_local_file_witness :
  exists sys' onEnd onError,
    run (boot sampleWorld)
      [LCall; LWake 0 (WList (Js.Fulfilled listingWithoutCsv)); LWake 0 WTick]
    = Some sys'
    /\ pool sys' = [Listen (LocalStream localPath) [] onDataRow onEnd onError]
    /\ requests sys'
       = (requests (boot sampleWorld)
          ++ [ListObjects "vehicle-feeds" "price-updates/";
              OpenStream (LocalStream localPath)])%list
    /\ logs sys'
       = (logs (boot sampleWorld) ++
          [startingEntry; infoEntry "No CSV files found in S3 bucket";
           infoEntry "Processing local CSV file"])%list.
Proof.
  apply (no_remote_csv_goes_to_local_file (boot sampleWorld) "vehicle-feeds"
           listingWithoutCsv).
  - exists sampleWorld, []. reflexivity.
  - reflexivity.
  - reflexivity.
  - intros contents C. injection C as <-.
    intros obj [<-|[<-|[]]]; reflexivity.
  - reflexivity.
Defined.

(** *** One call followed through its turns *)

Lemma exec_andThen {A B : Type} (m : Async A)
    (r : A -> Async B) (t : Js.Thrown -> Async B) : forall sys,
  exec (andThen m r t) sys
  = match snd (exec m sys) with
    | Ret a => exec (r a) (fst (exec m sys))
    | Throw e => exec (t e) (fst (exec m sys))
    | other => (fst (exec m sys), andThen other r t)
    end.
Proof.
  induction m as [a|e|k IH|f k IH|entry k IH|k IH|src k IH|k IH
                 |b q k IH|i q k IH|src us onData onEnd IHe onError IHr];
    intros sys; try reflexivity.
  - apply IH.
  - apply (IH (with_service f sys)).
  - apply (IH (with_log entry sys)).
  - apply IH.
  - apply (IH (with_request (OpenStream src) sys)).
Qed.

Lemma resume_andThen {A B : Type} (m k : Async A)
    (r : A -> Async B) (t : Js.Thrown -> Async B) ev date :
  resume m ev date = Some k ->
  resume (andThen m r t) ev date = Some (andThen k r t).
Proof.
  destruct m; destruct ev; simpl; intros E; try discriminate;
    injection E as <-; reflexivity.
Qed.

Lemma turns_andThen {A B : Type}
    (r : A -> Async B) (t : Js.Thrown -> Async B) evs :
  forall (m : Async A) sys sys' out evs2,
    turns m evs sys = Some (sys', out) ->
    turns (andThen m r t) (evs ++ evs2) sys
    = match out with
      | Ret a => turns (r a) evs2 sys'
      | Throw e => turns (t e) evs2 sys'
      | other => afterTurns (sys', andThen other r t) evs2
      end.
Proof.
  unfold turns. induction evs as [|ev evs IH]; intros m sys sys' out evs2 H.
  - simpl in H. injection H as H. simpl app. rewrite exec_andThen, H.
    destruct out; reflexivity.
  - simpl in H. rewrite exec_andThen.
    destruct (exec m sys) as [s1 m1]. simpl fst in *. simpl snd in *.
    destruct (resume m1 ev (now (world s1))) as [k|] eqn:R; [|discriminate].
    pose proof (resume_andThen m1 k r t ev (now (world s1)) R) as R'.
    assert (E : afterTurns (s1, andThen m1 r t) ((ev :: evs) ++ evs2)
                = afterTurns (exec (andThen k r t) s1) (evs ++ evs2)).
    { simpl. rewrite R'. reflexivity. }
    destruct m1; try discriminate; rewrite E; apply IH; exact H.
Qed.

Lemma run_afterTurns evs : forall st st',
  pool (fst st) = [] ->
  afterTurns st evs = Some st' ->
  run (park st) (map (LWake 0) evs) = Some (park st').
Proof.
  induction evs as [|ev evs IH]; intros [s t] st' P H; simpl in P, H.
  - injection H as <-. reflexivity.
  - destruct (resume t ev (now (world s))) as [k|] eqn:R; [|discriminate].
    assert (Pk : park (s, t) = with_pool [t] s).
    { unfold park. destruct t; destruct ev; try discriminate;
        simpl; rewrite P; reflexivity. }
    rewrite Pk. cbn [map run step]. rewrite (wake_single t ev k s P R).
    apply (IH (exec k s) st'); [|exact H].
    rewrite exec_pool. exact P.
Qed.

Lemma run_turns m evs sys st' :
  pool sys = [] ->
  turns m evs sys = Some st' ->
  run (invoke m sys) (map (LWake 0) evs) = Some (park st').
Proof.
  intros P H. apply (run_afterTurns evs (exec m sys) st'); [|exact H].
  rewrite exec_pool. exact P.
Qed.

Lemma turns_bind {A B : Type} (m : Async A) (k : A -> Async B)
    evs evs2 sys sys' a :
  turns m evs sys = Some (sys', Ret a) ->
  turns (bind m k) (evs ++ evs2) sys = turns (k a) evs2 sys'.
Proof. intros H. exact (turns_andThen k Throw evs m sys sys' (Ret a) evs2 H). Qed.

Lemma turns_bind_throw {A B : Type} (m : Async A) (k : A -> Async B)
    evs sys sys' e :
  turns m evs sys = Some (sys', Throw e) ->
  turns (bind m k) evs sys = Some (sys', Throw e).
Proof.
  intros H. rewrite <- (app_nil_r evs) at 1.
  exact (turns_andThen k Throw evs m sys sys' (Throw e) [] H).
Qed.

Lemma turns_await {A : Type} (m : Async A) evs sys sys' a :
  turns m evs sys = Some (sys', Ret a) ->
  turns (await m) (evs ++ [WTick]) sys = Some (sys', Ret a).
Proof.
  intros H. unfold await.
  rewrite (turns_andThen _ _ evs m sys sys' (Ret a) [WTick] H). reflexivity.
Qed.

Lemma turns_await_throw {A : Type} (m : Async A) evs sys sys' e :
  turns m evs sys = Some (sys', Throw e) ->
  turns (await m) (evs ++ [WTick]) sys = Some (sys', Throw e).
Proof.
  intros H. unfold await.
  rewrite (turns_andThen _ _ evs m sys sys' (Throw e) [WTick] H). reflexivity.
Qed.

Lemma turns_tryCatch {A : Type} (m : Async A) h evs sys sys' a :
  turns m evs sys = Some (sys', Ret a) ->
  turns (tryCatch m h) evs sys = Some (sys', Ret a).
Proof.
  intros H. rewrite <- (app_nil_r evs) at 1.
  exact (turns_andThen Ret h evs m sys sys' (Ret a) [] H).
Qed.

Lemma turns_tryCatch_throw {A : Type} (m : Async A) h evs evs2 sys sys' e :
  turns m evs sys = Some (sys', Throw e) ->
  turns (tryCatch m h) (evs ++ evs2) sys = turns (h e) evs2 sys'.
Proof. intros H. exact (turns_andThen Ret h evs m sys sys' (Throw e) evs2 H). Qed.

Lemma turns_tryFinally {A : Type} (m : Async A) fin evs evs2 sys sys' a :
  turns m evs sys = Some (sys', Ret a) ->
  turns (tryFinally m fin) (evs ++ evs2) sys
  = turns (fin ;; Ret a) evs2 sys'.
Proof.
  intros H. unfold tryFinally.
  exact (turns_andThen _ _ evs m sys sys' (Ret a) evs2 H).
Qed.

(** The rows of a file arriving at a listening parser. *)
Lemma afterTurns_data {A : Type} rows :
  forall sys src us (onEnd : list PriceUpdate -> Async A) onError rest,
    afterTurns (sys, Listen src us onDataRow onEnd onError)
      (map WData rows ++ rest)
    = afterTurns
        (sys, Listen src (us ++ map (recordOf (now (world sys))) rows)%list
                onDataRow onEnd onError) rest.
Proof.
  induction rows as [|row rows IH]; intros sys src us onEnd onError rest.
  - simpl. rewrite app_nil_r. reflexivity.
  - simpl. rewrite IH. unfold onDataRow at 1.
    rewrite <- app_assoc. reflexivity.
Qed.

Lemma turns_processCSVStream src rows sys :
  turns (processCSVStream src) (map WData rows ++ [WEnd; WTick]) sys
  = Some (with_log (batchEntry (map (recordOf (now (world sys))) rows)) sys,
          Ret tt).
Proof.
  unfold turns, processCSVStream. cbn [exec]. rewrite afterTurns_data.
  cbn [app]. destruct (map (recordOf (now (world sys))) rows); reflexivity.
Qed.

Lemma turns_processCSVStream_error src rows e sys :
  turns (processCSVStream src) (map WData rows ++ [WError e]) sys
  = Some (sys, Throw e).
Proof.
  unfold turns, processCSVStream. cbn [exec]. rewrite afterTurns_data.
  reflexivity.
Qed.

Lemma turns_bind_now {A B : Type} (m : Async A) (k : A -> Async B)
    evs sys sys' a :
  turns m [] sys = Some (sys', Ret a) ->
  turns (bind m k) evs sys = turns (k a) evs sys'.
Proof. intros H. exact (turns_bind m k [] evs sys sys' a H). Qed.

Lemma turns_bind_last {A B : Type} (m : Async A) (k : A -> Async B)
    evs sys sys' a :
  turns m evs sys = Some (sys', Ret a) ->
  turns (bind m k) evs sys = turns (k a) [] sys'.
Proof.
  intros H. rewrite <- (app_nil_r evs) at 1.
  exact (turns_bind m k evs [] sys sys' a H).
Qed.

Lemma turns_tryFinally_last {A : Type} (m : Async A) fin evs sys sys' a :
  turns m evs sys = Some (sys', Ret a) ->
  turns (tryFinally m fin) evs sys = turns (fin ;; Ret a) [] sys'.
Proof.
  intros H. rewrite <- (app_nil_r evs) at 1.
  exact (turns_tryFinally m fin evs [] sys sys' a H).
Qed.

Lemma turns_Env {A : Type} (k : World -> Async A) evs sys :
  turns (Env k) evs sys = turns (k (world sys)) evs sys.
Proof. reflexivity. Qed.

Lemma turns_Read {A : Type} (k : Service -> Async A) evs sys :
  turns (Read k) evs sys = turns (k (service sys)) evs sys.
Proof. reflexivity. Qed.

Lemma turns_Modify {A : Type} f (k : Async A) evs sys :
  turns (Modify f k) evs sys = turns k evs (with_service f sys).
Proof. reflexivity. Qed.

(** [processFromS3] when the listing has a CSV object: the listing, the
    rows of the chosen object, the end of its stream and the turns of the
    two awaits. *)
Lemma turns_processFromS3 sys b out contents obj key rows :
  truthy (AWS_S3_BUCKET (world sys)) = Some b ->
  Contents out = Some contents ->
  latestFile contents = Some obj ->
  truthy (Key obj) = Some key ->
  turns processFromS3
    ([WList (Js.Fulfilled out)]
     ++ (map WData rows ++ [WEnd; WTick]) ++ [WTick]) sys
  = Some
      (with_log (infoEntry ("Successfully processed " ++ key))
         (with_log (batchEntry (map (recordOf (now (world sys))) rows))
            (with_request (OpenStream (S3Stream b key))
               (with_log (infoEntry ("Processing CSV file: " ++ key))
                  (with_request (ListObjects b "price-updates/") sys)))),
       Ret tt).
Proof.
  intros T C LF TK. unfold processFromS3. rewrite turns_Env. cbv beta.
  rewrite T. apply turns_tryCatch.
  erewrite turns_bind by reflexivity. cbv beta. rewrite C.
  destruct contents as [|o contents]; [discriminate|].
  rewrite LF, TK.
  erewrite turns_bind_now by reflexivity.
  erewrite turns_bind_now by reflexivity.
  erewrite turns_bind_last by apply turns_await, turns_processCSVStream.
  reflexivity.
Qed.

(** [processFromLocal] when the local file exists. *)
Lemma turns_processFromLocal sys rows :
  localCsvExists (world sys) = true ->
  turns processFromLocal ((map WData rows ++ [WEnd; WTick]) ++ [WTick]) sys
  = Some
      (with_log (infoEntry "Successfully processed local CSV file")
         (with_log (batchEntry (map (recordOf (now (world sys))) rows))
            (with_request (OpenStream (LocalStream localPath))
               (with_log (infoEntry "Processing local CSV file") sys))),
       Ret tt).
Proof.
  intros L. unfold processFromLocal. apply turns_tryCatch.
  rewrite turns_Env. cbv beta. rewrite L. cbn [negb].
  erewrite turns_bind_now by reflexivity.
  erewrite turns_bind_now by reflexivity.
  erewrite turns_bind_last by apply turns_await, turns_processCSVStream.
  reflexivity.
Qed.

Lemma turns_startProcessing_both sys b out contents obj key rowsR rowsL :
  service sys = newService ->
  truthy (AWS_S3_BUCKET (world sys)) = Some b ->
  Contents out = Some contents ->
  latestFile contents = Some obj ->
  truthy (Key obj) = Some key ->
  localCsvExists (world sys) = true ->
  turns startProcessing
    ((([WList (Js.Fulfilled out)]
       ++ (map WData rowsR ++ [WEnd; WTick]) ++ [WTick]) ++ [WTick])
     ++ ((map WData rowsL ++ [WEnd; WTick]) ++ [WTick]) ++ [WTick]) sys
  = Some
      ({| world := world sys; service := newService;
          logs := (logs sys ++
                   [startingEntry;
                    infoEntry ("Processing CSV file: " ++ key);
                    batchEntry (map (recordOf (now (world sys))) rowsR);
                    infoEntry ("Successfully processed " ++ key);
                    infoEntry "Processing local CSV file";
                    batchEntry (map (recordOf (now (world sys))) rowsL);
                    infoEntry "Successfully processed local CSV file";
                    infoEntry "Price processing completed successfully"])%list;
          requests := (requests sys
                       ++ [ListObjects b "price-updates/";
                           OpenStream (S3Stream b key);
                           OpenStream (LocalStream localPath)])%list;
          pool := pool sys;
          finished := finished sys |}, Ret tt).
Proof.
  intros S T C LF TK L. unfold startProcessing.
  rewrite turns_Read. cbv beta. rewrite S. cbn [processingLock newService].
  rewrite !turns_Modify.
  erewrite turns_tryFinally_last.
  2:{ apply turns_tryCatch.
      erewrite turns_bind_now by reflexivity.
      erewrite turns_bind
        by (apply turns_await, (turns_processFromS3 _ b out contents obj key);
            assumption).
      erewrite turns_bind_last
        by (apply turns_await, turns_processFromLocal; exact L).
      reflexivity. }
  destruct sys as [w s l r p f]. simpl in S. subst s.
  cbv -[app append batchEntry map recordOf infoEntry startingEntry localPath].
  repeat rewrite <- app_assoc. reflexivity.
Qed.

(** With a bucket whose listing has a CSV object and a local file, one
    run sends exactly three requests, in this order: the listing of
    'price-updates/', the stream of the chosen remote object, the stream
    of the local file. Each file is handed over as one batch when its
    stream ends, remote batch first, and the run resolves with the service
    idle. *)
Theorem remote_file_is_read_before_local_file
    sys b out contents obj key rowsR rowsL :
  Reachable sys -> pool sys = [] ->
  truthy (AWS_S3_BUCKET (world sys)) = Some b ->
  Contents out = Some contents ->
  latestFile contents = Some obj ->
  Key obj = Some key ->
  localCsvExists (world sys) = true ->
  exists sys',
    run sys (([LCall; LWake 0 (WList (Js.Fulfilled out))]
              ++ dataEvents 0 rowsR
              ++ [LWake 0 WEnd; LWake 0 WTick; LWake 0 WTick; LWake 0 WTick])
             ++ dataEvents 0 rowsL
             ++ [LWake 0 WEnd; LWake 0 WTick; LWake 0 WTick; LWake 0 WTick])%list
    = Some sys'
    /\ pool sys' = [] /\ service sys' = newService
    /\ finished sys' = (finished sys ++ [Resolved])%list
    /\ requests sys'
       = (requests sys
          ++ [ListObjects b "price-updates/";
              OpenStream (S3Stream b key);
              OpenStream (LocalStream localPath)])%list
    /\ logs sys'
       = (logs sys ++
          [startingEntry;
           infoEntry ("Processing CSV file: " ++ key);
           batchEntry (map (recordOf (now (world sys))) rowsR);
           infoEntry ("Successfully processed " ++ key);
           infoEntry "Processing local CSV file";
           batchEntry (map (recordOf (now (world sys))) rowsL);
           infoEntry "Successfully processed local CSV file";
           infoEntry "Price processing completed successfully"])%list.
Proof.
  intros R P T C LF K L. pose proof (idle_of_reachable sys R P) as S.
  assert (TK : truthy (Key obj) = Some key).
  { destruct (proj2 (latestFile_spec contents) obj LF)
      as (_ & key' & K' & E).
    apply truthy_csv_key; [|exact K]. unfold isCsv. rewrite K'. exact E. }
  pose proof (turns_startProcessing_both sys b out contents obj key rowsR rowsL
                S T C LF TK L) as H.
  apply (run_turns _ _ _ _ P) in H.
  eexists. split.
  - unfold dataEvents.
    repeat rewrite map_app in H. repeat rewrite map_map in H.
    cbn [map app] in H. cbn [app run step].
    repeat rewrite <- app_assoc in *. cbn [app] in *. exact H.
  - unfold park. cbn [leftover noteOutcome with_finished pool service finished requests logs world].
    rewrite P. repeat split.
Qed.

Lemma remote_file_is_read_before_local_file_witness :
  exists sys',
    run (boot sampleWorld)
      (([LCall; LWake 0 (WList (Js.Fulfilled remoteListing))]
        ++ dataEvents 0 remoteFeed
        ++ [LWake 0 WEnd; LWake 0 WTick; LWake 0 WTick; LWake 0 WTick])
       ++ dataEvents 0 localFeed
       ++ [LWake 0 WEnd; LWake 0 WTick; LWake 0 WTick; LWake 0 WTick])%list
    = Some sys'
    /\ pool sys' = [] /\ service sys' = newService
    /\ finished sys' = (finished (boot sampleWorld) ++ [Resolved])%list
    /\ requests sys'
       = (requests (boot sampleWorld)
          ++ [ListObjects "vehicle-feeds" "price-updates/";
              OpenStream
                (S3Stream "vehicle-feeds" "price-updates/2023-11-14-a.csv");
              OpenStream (LocalStream localPath)])%list
    /\ logs sys'
       = (logs (boot sampleWorld) ++
          [startingEntry;
           infoEntry ("Processing CSV file: "
                      ++ "price-updates/2023-11-14-a.csv");
           batchEntry
             (map (recordOf (now (world (boot sampleWorld)))) remoteFeed);
           infoEntry ("Successfully processed "
                      ++ "price-updates/2023-11-14-a.csv");
           infoEntry "Processing local CSV file";
           batchEntry
             (map (recordOf (now (world (boot sampleWorld)))) localFeed);
           infoEntry "Successfully processed local CSV file";
           infoEntry "Price processing completed successfully"])%list.
Proof.
  apply (remote_file_is_read_before_local_file (boot sampleWorld)
           "vehicle-feeds" remoteListing remoteObjects newestRemoteObject
           "price-updates/2023-11-14-a.csv" remoteFeed localFeed).
  - exists sampleWorld, []. reflexivity.
  - reflexivity.
  - reflexivity.
  - reflexivity.
  - reflexivity.
  - reflexivity.
  - reflexivity.
Defined.

(** ** Properties of the vehicle repository and of the price handler *)


Import VehicleRepository.

Create HintDb repo.
#[export] Hint Unfold create findById findAll update updatePrice updateStatus
  delete pool_connect client_query client_release logger_logError lift
  mapFirstRow firstRowOrNull dbTryFinally dbTryCatch dbBind : repo.

Ltac walk_db :=
  repeat (autounfold with repo; simpl; intros;
          match goal with
          | |- _ /\ _ => split
          | |- _ = _ => reflexivity
          | |- context [match ?x with _ => _ end] => destruct x
          end).

Lemma runDb_released {A : Type} (m : Db A) : forall c answer n,
  disciplined m Released ->
  exists a, runDb m c answer n = ([], Js.Fulfilled a).
Proof.
  destruct m; simpl; intros c answer n D; try (destruct D; discriminate);
    try discriminate.
  eauto.
Qed.

Lemma runDb_failed {A : Type} (m : Db A) : forall e c answer n,
  disciplined m (Failed e) ->
  runDb m c answer n = ([], Js.Rejected e).
Proof.
  destruct m; simpl; intros e0 c answer n D; try (destruct D; discriminate);
    try discriminate.
  injection D as <-. reflexivity.
Qed.

Lemma runDb_held {A : Type} (m : Db A) : forall c answer n,
  disciplined m Held ->
  exists middle a,
    runDb m c answer n = ((middle ++ [EvRelease])%list, Js.Fulfilled a)
    /\ Forall isQueryOrLog middle.
Proof.
  induction m as [a|e|k IH|text vs k IH|k IH|e op id k IH];
    simpl; intros c answer n D; try discriminate;
    try (destruct D; discriminate).
  - destruct D as [_ D].
    destruct (IH (answer n) c answer (S n) (D _)) as (middle & a & E & F).
    rewrite E. exists (EvQuery text vs :: middle), a.
    split; [reflexivity|]. constructor; [exact I|exact F].
  - destruct D as [_ D].
    destruct (runDb_released k c answer n D) as [a E]. rewrite E.
    exists [], a. split; [reflexivity|constructor].
  - destruct D as [_ D].
    destruct (IH c answer n D) as (middle & a & E & F).
    rewrite E. exists (EvLogError e op id :: middle), a.
    split; [reflexivity|]. constructor; [exact I|exact F].
Qed.

Lemma disciplined_releases {A : Type} (m : Db A) :
  disciplined m Fresh -> ReleasesItsClient m.
Proof.
  destruct m; simpl; intros D; try discriminate;
    try (destruct D; discriminate).
  destruct D as (_ & H & F). intros answer. split.
  - intros e. simpl.
    rewrite (runDb_failed _ e (Js.Rejected e) answer 0 (F e)). reflexivity.
  - simpl.
    destruct (runDb_held _ (Js.Fulfilled tt) answer 0 H) as (middle & a & E & Q).
    rewrite E. eauto.
Qed.

(** Every method of the repository takes one client from the pool and
    gives it back exactly once, as its last action, whatever its queries
    answer; its queries and error logs all happen while it holds the
    client. When [pool.connect()] itself fails the method rejects with
    that error, having done nothing else. *)
Theorem every_method_releases_its_client
    (Json : Type) (JSON_parse : string -> Js.Settled Json)
    (JSON_stringify : Json -> string)
    (Math_ceil_div : Js.Number -> Js.Number -> Js.Number) :
  (forall data, ReleasesItsClient (create JSON_parse JSON_stringify data))
  /\ (forall id, ReleasesItsClient (findById JSON_parse id))
  /\ (forall filters pagination,
        ReleasesItsClient (findAll JSON_parse Math_ceil_div filters pagination))
  /\ (forall id data, ReleasesItsClient (update JSON_parse JSON_stringify id data))
  /\ (forall id price, ReleasesItsClient (updatePrice JSON_parse id price))
  /\ (forall id status, ReleasesItsClient (updateStatus JSON_parse id status))
  /\ (forall id, ReleasesItsClient (delete id)).
Proof.
  repeat split; intros; apply disciplined_releases; walk_db.
Qed.

Ltac tidy :=
  intros;
  repeat match goal with
         | H : Js.Fulfilled _ = Js.Fulfilled _ |- _ => injection H as H; subst
         | H : Js.Rejected _ = Js.Rejected _ |- _ => injection H as H; subst
         | H : _ :: _ = _ :: _ |- _ => injection H as ? ?; subst
         | H : ?x = _, H' : ?x = _ |- _ => rewrite H in H'
         end;
  try discriminate; try congruence; auto.

(** *** The statement of updatePrice *)

(** [updatePrice(id, price)] sends exactly one statement, the UPDATE of
    [price] and [updated_at], with the parameters [price, id] in this
    order. It never rejects once connected: a failed query, or a returned
    row that cannot be mapped, is logged and answered with [null], as is
    an update that matched no row. *)
Theorem updatePrice_sends_one_update
    (Json : Type) (JSON_parse : string -> Js.Settled Json) id price answer :
  exists events found,
    runDb (updatePrice JSON_parse id price) (Js.Fulfilled tt) answer 0
    = ((EvConnect
        :: EvQuery updatePriceSql [SqlNumber price; SqlText id]
        :: events ++ [EvRelease])%list,
       Js.Fulfilled found)
    /\ (forall e, answer 0 = Js.Rejected e ->
          events = [EvLogError e "update_vehicle_price" (Some id)]
          /\ found = None)
    /\ (forall result, answer 0 = Js.Fulfilled result -> rows result = [] ->
          events = [] /\ found = None)
    /\ (forall result row rest,
          answer 0 = Js.Fulfilled result -> rows result = row :: rest ->
          match mapRowToVehicle JSON_parse row with
          | Js.Fulfilled v => events = [] /\ found = Some v
          | Js.Rejected e =>
              events = [EvLogError e "update_vehicle_price" (Some id)]
              /\ found = None
          end).
Proof.
  unfold updatePrice. autounfold with repo. simpl.
  destruct (answer 0) as [result|e] eqn:A; simpl.
  - destruct (rows result) as [|row rest] eqn:R; simpl.
    + exists [], None. split; [reflexivity|]. repeat split; tidy.
    + destruct (mapRowToVehicle JSON_parse row) as [v|e] eqn:M; simpl.
      * exists [], (Some v). split; [reflexivity|].
        repeat split; tidy. rewrite M. auto.
      * exists [EvLogError e "update_vehicle_price" (Some id)], None.
        split; [reflexivity|]. repeat split; tidy. rewrite M. auto.
  - exists [EvLogError e "update_vehicle_price" (Some id)], None.
    split; [reflexivity|]. repeat split; tidy.
Qed.

(** *** The statements of findAll and update *)

Lemma numbered_app k items sql v :
  numbered k (items ++ [(sql, v)])
  = (numbered k items
     ++ [(sql ++ "$" ++ JsNumber.toString (k + List.length items))%string])%list.
Proof.
  revert k. induction items as [|[s w] items IH]; simpl; intros k.
  - rewrite Nat.add_0_r. reflexivity.
  - rewrite IH. rewrite Nat.add_succ_r. reflexivity.
Qed.

Lemma push_numbered base sql v b :
  Numbered base b -> Numbered base (push sql v b).
Proof.
  intros (items & F & V & I). exists (items ++ [(sql, v)])%list.
  unfold push. simpl. rewrite F, V, I, numbered_app, map_app, length_app.
  simpl. rewrite <- app_assoc. repeat split.
  now rewrite Nat.add_1_r.
Qed.

Lemma pushIfText_numbered base sql wrap text b :
  Numbered base b -> Numbered base (pushIfText sql wrap text b).
Proof.
  intros N. unfold pushIfText. destruct (truthy text); [|exact N].
  now apply push_numbered.
Qed.

Lemma pushIfNumber_numbered base sql number b :
  Numbered base b -> Numbered base (pushIfNumber sql number b).
Proof.
  intros N. unfold pushIfNumber.
  destruct number as [n|]; [|exact N].
  destruct (JsNumber.truthy n); [|exact N]. now apply push_numbered.
Qed.

Lemma pushIfDefined_numbered base sql value b :
  Numbered base b -> Numbered base (pushIfDefined sql value b).
Proof.
  intros N. unfold pushIfDefined. destruct value; [|exact N].
  now apply push_numbered.
Qed.

Lemma pushIfText_truthy sql wrap text b :
  Forall truthyParameter (values b) ->
  Forall truthyParameter (values (pushIfText sql wrap text b)).
Proof.
  intros F. unfold pushIfText. destruct (truthy text); [|exact F].
  simpl. apply Forall_app. split; [exact F|]. repeat constructor.
Qed.

Lemma pushIfNumber_truthy sql number b :
  Forall truthyParameter (values b) ->
  Forall truthyParameter (values (pushIfNumber sql number b)).
Proof.
  intros F. unfold pushIfNumber. destruct number as [n|]; [|exact F].
  destruct (JsNumber.truthy n) eqn:T; [|exact F].
  simpl. apply Forall_app. split; [exact F|]. repeat constructor. exact T.
Qed.

Lemma numbered_last_placeholders b base extra1 extra2 :
  Numbered base b ->
  nth_error (values b ++ [extra1; extra2]) (valueIndex b - 1) = Some extra1
  /\ nth_error (values b ++ [extra1; extra2]) (valueIndex b + 1 - 1)
     = Some extra2.
Proof.
  intros (items & _ & V & I). rewrite V, I.
  replace (S (List.length items) - 1) with (List.length (map snd items))
    by (rewrite length_map; lia).
  replace (S (List.length items) + 1 - 1)
    with (S (List.length (map snd items)))
    by (rewrite length_map; lia).
  split.
  - rewrite nth_error_app2 by lia. rewrite Nat.sub_diag. reflexivity.
  - rewrite nth_error_app2 by lia.
    replace (S (List.length (map snd items)) - List.length (map snd items))
      with 1 by lia.
    reflexivity.
Qed.

(** For every combination of filters, the conditions [findAll] builds
    are numbered $1, $2, ... in the order of their parameters, one
    parameter per placeholder; the placeholders of LIMIT and OFFSET are
    the next two and receive [limit] and [offset]. A numeric filter of
    value 0 (or NaN) adds no condition. *)
Theorem findAll_placeholders_match_parameters filters limit offset :
  Numbered ["deleted_at IS NULL"] (applyFilters filters)
  /\ Forall truthyParameter (values (applyFilters filters))
  /\ nth_error (values (applyFilters filters)
                ++ [SqlNumber limit; SqlNumber offset])
       (valueIndex (applyFilters filters) - 1)
     = Some (SqlNumber limit)
  /\ nth_error (values (applyFilters filters)
                ++ [SqlNumber limit; SqlNumber offset])
       (valueIndex (applyFilters filters) + 1 - 1)
     = Some (SqlNumber offset).
Proof.
  assert (N : Numbered ["deleted_at IS NULL"] (applyFilters filters)).
  { unfold applyFilters.
    repeat first [apply pushIfText_numbered | apply pushIfNumber_numbered].
    exists []. repeat split. }
  split; [exact N|]. split.
  - unfold applyFilters.
    repeat first [apply pushIfText_truthy | apply pushIfNumber_truthy].
    constructor.
  - exact (numbered_last_placeholders _ _ _ _ N).
Qed.

(** For every set of changed fields, the assignments [update] builds are
    numbered $1, $2, ... in the order of their parameters, followed by
    the unnumbered [updated_at = NOW()], and the placeholder of the WHERE
    clause is the next number and receives [id].  With no field to change
    the statement sets [updated_at] only and the id is its one
    parameter. *)
Theorem update_placeholders_match_parameters
    (Json : Type) (JSON_stringify : Json -> string) data id :
  (exists items,
     fragments (applyUpdates JSON_stringify data)
     = (numbered 1 items ++ ["updated_at = NOW()"])%list
     /\ values (applyUpdates JSON_stringify data) = map snd items
     /\ valueIndex (applyUpdates JSON_stringify data) = S (List.length items)
     /\ nth_error (values (applyUpdates JSON_stringify data) ++ [SqlText id])
          (valueIndex (applyUpdates JSON_stringify data) - 1)
        = Some (SqlText id))
  /\ updateQuery (applyUpdates JSON_stringify noChange)
     = template
         ["        UPDATE vehicles ";
          "        SET updated_at = NOW()";
          "        WHERE id = $1 AND deleted_at IS NULL";
          "        RETURNING *"]
  /\ values (applyUpdates JSON_stringify noChange) = [].
Proof.
  split.
  - assert (Inner : exists b9,
              applyUpdates JSON_stringify data
              = {| fragments := (fragments b9 ++ ["updated_at = NOW()"])%list;
                   values := values b9;
                   valueIndex := valueIndex b9 |}
              /\ Numbered [] b9).
    { unfold applyUpdates. eexists. split; [reflexivity|].
      repeat apply pushIfDefined_numbered. exists []. repeat split. }
    destruct Inner as (b9 & -> & N).
    destruct N as (items & F & V & I). exists items. simpl.
    rewrite F, V, I. repeat split.
    replace (S (List.length items) - 1) with (List.length (map snd items))
      by (rewrite length_map; lia).
    rewrite nth_error_app2 by lia. rewrite Nat.sub_diag. reflexivity.
  - split; reflexivity.
Qed.

(** When the counting query of [findAll] fails, the page query is not
    sent: the error is logged, the client released, and the caller gets
    an empty page (no vehicle, total 0, 0 pages) instead of an error. *)
Theorem findAll_stops_when_count_fails
    (Json : Type) (JSON_parse : string -> Js.Settled Json)
    (Math_ceil_div : Js.Number -> Js.Number -> Js.Number)
    filters pagination answer e :
  answer 0 = Js.Rejected e ->
  runDb (findAll JSON_parse Math_ceil_div filters pagination)
    (Js.Fulfilled tt) answer 0
  = ([EvConnect;
      EvQuery (countQuery (applyFilters filters))
        (values (applyFilters filters));
      EvLogError e "find_all_vehicles" None;
      EvRelease],
     Js.Fulfilled (emptyPage pagination)).
Proof.
  intros A. unfold findAll. autounfold with repo. simpl. rewrite A. reflexivity.
Qed.

Lemma findAll_stops_when_count_fails_witness :
  runDb (findAll sampleParse onePerPage noFilters firstPage)
    (Js.Fulfilled tt) databaseDown 0
  = ([EvConnect;
      EvQuery (countQuery (applyFilters noFilters))
        (values (applyFilters noFilters));
      EvLogError (Js.ErrorObj "Connection terminated unexpectedly")
        "find_all_vehicles" None;
      EvRelease],
     Js.Fulfilled (emptyPage firstPage)).
Proof.
  apply (findAll_stops_when_count_fails string sampleParse onePerPage
           noFilters firstPage databaseDown
           (Js.ErrorObj "Connection terminated unexpectedly")).
  reflexivity.
Defined.

(** When both queries of [findAll] succeed, the counting query returning
    its row, the method has sent the counting query and then the page
    query, both with the parameters of the filters, the page query with
    [limit] and [offset] appended.  If every row of the page maps, it
    returns them with the total [parseInt] of the [count] column and the
    page and limit of the request; if one does not, it logs the error and
    returns the empty page with total 0. *)
Theorem findAll_counts_then_reads_the_page
    (Json : Type) (JSON_parse : string -> Js.Settled Json)
    (Math_ceil_div : Js.Number -> Js.Number -> Js.Number)
    filters pagination answer counted crow crest found :
  answer 0 = Js.Fulfilled counted ->
  rows counted = crow :: crest ->
  answer 1 = Js.Fulfilled found ->
  runDb (findAll JSON_parse Math_ceil_div filters pagination)
    (Js.Fulfilled tt) answer 0
  = match mapRows JSON_parse (rows found) with
    | Js.Fulfilled vs =>
        ([EvConnect;
          EvQuery (countQuery (applyFilters filters))
            (values (applyFilters filters));
          EvQuery (pageQuery (applyFilters filters))
            (values (applyFilters filters)
             ++ [SqlNumber (p_limit pagination);
                 SqlNumber (p_offset pagination)])%list;
          EvRelease],
         Js.Fulfilled
           {| vehicles := vs;
              total := JsNumber.parseIntOf (row_count crow);
              page := p_page pagination;
              limit := p_limit pagination;
              totalPages :=
                Math_ceil_div (JsNumber.parseIntOf (row_count crow))
                  (p_limit pagination) |})
    | Js.Rejected e =>
        ([EvConnect;
          EvQuery (countQuery (applyFilters filters))
            (values (applyFilters filters));
          EvQuery (pageQuery (applyFilters filters))
            (values (applyFilters filters)
             ++ [SqlNumber (p_limit pagination);
                 SqlNumber (p_offset pagination)])%list;
          EvLogError e "find_all_vehicles" None;
          EvRelease],
         Js.Fulfilled (emptyPage pagination))
    end.
Proof.
  intros A R B. unfold findAll. autounfold with repo. simpl.
  rewrite A. simpl. rewrite R. simpl. rewrite B. simpl.
  destruct (mapRows JSON_parse (rows found)); reflexivity.
Qed.

Lemma findAll_counts_then_reads_the_page_witness :
  runDb (findAll sampleParse onePerPage noFilters firstPage)
    (Js.Fulfilled tt) (oneVehicle "120") 0
  = ([EvConnect;
      EvQuery (countQuery (applyFilters noFilters))
        (values (applyFilters noFilters));
      EvQuery (pageQuery (applyFilters noFilters))
        (values (applyFilters noFilters)
         ++ [SqlNumber (p_limit firstPage);
             SqlNumber (p_offset firstPage)])%list;
      EvRelease],
     Js.Fulfilled
       {| vehicles :=
            [{| v_id := "v1"; v_brand := "Seat"; v_model := "Ibiza";
                v_year := Js.Finite false 2019 0;
                v_mileage := Js.Finite false 42000 0;
                v_price := Js.Finite false 1850000 (-2);
                v_description := None; v_mainPhoto := None;
                v_technicalSpecs := Some "120";
                v_status := "available";
                v_createdAt := 1690000000000%Z;
                v_updatedAt := 1700000000000%Z |}];
          total := Js.Finite false 1 0;
          page := p_page firstPage;
          limit := p_limit firstPage;
          totalPages := Js.Finite false 1 0 |}).
Proof.
  apply (findAll_counts_then_reads_the_page string sampleParse onePerPage
           noFilters firstPage (oneVehicle "120") (resultOf [countRow])
           countRow [] (resultOf [storedRow "120"])).
  - reflexivity.
  - reflexivity.
  - reflexivity.
Defined.

(** When a row of the page cannot be mapped (its [technical_specs] text
    is not JSON), [findAll] drops the whole page and the count it already
    has: the caller gets the empty page with total 0. *)
Theorem findAll_answers_empty_page_on_bad_row
    (Json : Type) (JSON_parse : string -> Js.Settled Json)
    (Math_ceil_div : Js.Number -> Js.Number -> Js.Number)
    filters pagination answer counted crow crest found e :
  answer 0 = Js.Fulfilled counted ->
  rows counted = crow :: crest ->
  answer 1 = Js.Fulfilled found ->
  mapRows JSON_parse (rows found) = Js.Rejected e ->
  snd (runDb (findAll JSON_parse Math_ceil_div filters pagination)
         (Js.Fulfilled tt) answer 0)
  = Js.Fulfilled (emptyPage pagination).
Proof.
  intros A R B M. unfold findAll. autounfold with repo. simpl.
  rewrite A. simpl. rewrite R. simpl. rewrite B. simpl. rewrite M.
  reflexivity.
Qed.

Lemma findAll_answers_empty_page_on_bad_row_witness :
  snd (runDb (findAll sampleParse onePerPage noFilters firstPage)
         (Js.Fulfilled tt) (oneVehicle "[object Object]") 0)
  = Js.Fulfilled (emptyPage firstPage).
Proof.
  apply (findAll_answers_empty_page_on_bad_row string sampleParse onePerPage
           noFilters firstPage (oneVehicle "[object Object]") (resultOf [countRow])
           countRow [] (resultOf [storedRow "[object Object]"])
           (Js.ErrorObj "Unexpected token o in JSON at position 1")).
  - reflexivity.
  - reflexivity.
  - reflexivity.
  - reflexivity.
Defined.

(** *** VehicleController.updatePrice *)

(** The handler of the price update answers 400 without touching the
    database when the id is missing or empty, when the price is not a
    number, or when it is a negative number. *)
Theorem controller_updatePrice_rejects_bad_input
    (Json : Type) (JSON_parse : string -> Js.Settled Json)
    params_id price connection answer :
  truthy params_id = None
  \/ price = VehicleController.BodyOther
  \/ (exists x, price = VehicleController.BodyNumber x
                 /\ JsNumber.ltZero x = true) ->
  exists error,
    runDb (VehicleController.updatePrice JSON_parse params_id price)
      connection answer 0
    = ([], Js.Fulfilled (VehicleController.failure 400 error)).
Proof.
  unfold VehicleController.updatePrice. autounfold with repo.
  intros [H|[H|(x & H & N)]].
  - rewrite H. simpl. eauto.
  - rewrite H. destruct (truthy params_id); simpl; eauto.
  - rewrite H. destruct (truthy params_id); simpl; [|eauto].
    rewrite N. simpl. eauto.
Qed.

Lemma controller_updatePrice_rejects_bad_input_witness :
  exists error,
    runDb (VehicleController.updatePrice sampleParse (Some "v1")
             (VehicleController.BodyNumber (Js.Finite true 5 0)))
      (Js.Fulfilled tt) (oneVehicle "120") 0
    = ([], Js.Fulfilled (VehicleController.failure 400 error)).
Proof.
  apply (controller_updatePrice_rejects_bad_input string sampleParse
           (Some "v1") (VehicleController.BodyNumber (Js.Finite true 5 0))
           (Js.Fulfilled tt) (oneVehicle "120")).
  right. right. exists (Js.Finite true 5 0). split; reflexivity.
Defined.

(** Whatever the request, a statement the handler sends whose first
    parameter is a number is the price UPDATE, its price is the price of
    the body and is not negative, and its second parameter is the id of
    the route. *)
Theorem controller_updatePrice_never_writes_negative_price
    (Json : Type) (JSON_parse : string -> Js.Settled Json)
    params_id price connection answer text p rest :
  In (EvQuery text (SqlNumber p :: rest))
     (fst (runDb (VehicleController.updatePrice JSON_parse params_id price)
             connection answer 0)) ->
  JsNumber.ltZero p = false
  /\ price = VehicleController.BodyNumber p
  /\ text = updatePriceSql
  /\ exists id, truthy params_id = Some id /\ rest = [SqlText id].
Proof.
  unfold VehicleController.updatePrice. autounfold with repo.
  destruct (truthy params_id) as [id|]; simpl; [|contradiction].
  destruct price as [x|]; simpl; [|contradiction].
  destruct (JsNumber.ltZero x) eqn:N; simpl; [contradiction|].
  unfold updatePrice. autounfold with repo. simpl.
  destruct connection as [[]|e]; simpl.
  - destruct (answer 0) as [result|e]; simpl.
    + destruct (rows result) as [|row rows']; simpl.
      * intros [H|[H|[H|[]]]]; try discriminate.
        injection H as <- <- <-. repeat split; eauto.
      * destruct (mapRowToVehicle JSON_parse row); simpl;
          intros H; repeat (destruct H as [H|H]; try discriminate);
          try contradiction; injection H as <- <- <-; repeat split; eauto.
    + intros H; repeat (destruct H as [H|H]; try discriminate);
        try contradiction; injection H as <- <- <-; repeat split; eauto.
  - intros H; repeat (destruct H as [H|H]; try discriminate);
      try contradiction.
Qed.

Lemma controller_updatePrice_never_writes_negative_price_witness :
  JsNumber.ltZero (Js.Finite false 18000 0) = false
  /\ VehicleController.BodyNumber (Js.Finite false 18000 0)
     = VehicleController.BodyNumber (Js.Finite false 18000 0)
  /\ updatePriceSql = updatePriceSql
  /\ exists id, truthy (Some "v1") = Some id /\ [SqlText "v1"] = [SqlText id].
Proof.
  apply (controller_updatePrice_never_writes_negative_price string sampleParse
           (Some "v1") (VehicleController.BodyNumber (Js.Finite false 18000 0))
           (Js.Fulfilled tt) (oneVehicle "120") updatePriceSql
           (Js.Finite false 18000 0) [SqlText "v1"]).
  right. left. reflexivity.
Defined.

(** For a request with an id and a non-negative price: the handler
    answers 500 only when no client could be obtained from the pool; a
    failed UPDATE is answered 404 'Vehicle not found', like an unknown
    id, because the repository turns the failure into [null]; every other
    answer is 200 or 404. *)
Theorem controller_updatePrice_status_codes
    (Json : Type) (JSON_parse : string -> Js.Settled Json)
    params_id id x answer :
  truthy params_id = Some id ->
  JsNumber.ltZero x = false ->
  (forall e,
     runDb (VehicleController.updatePrice JSON_parse params_id
              (VehicleController.BodyNumber x))
       (Js.Rejected e) answer 0
     = ([EvConnect; EvLogError e "update_vehicle_price" params_id],
        Js.Fulfilled
          (VehicleController.failure 500 "Failed to update vehicle price")))
  /\ (forall e,
        answer 0 = Js.Rejected e ->
        snd (runDb (VehicleController.updatePrice JSON_parse params_id
                      (VehicleController.BodyNumber x))
               (Js.Fulfilled tt) answer 0)
        = Js.Fulfilled (VehicleController.failure 404 "Vehicle not found"))
  /\ (exists response,
        snd (runDb (VehicleController.updatePrice JSON_parse params_id
                      (VehicleController.BodyNumber x))
               (Js.Fulfilled tt) answer 0)
        = Js.Fulfilled response
        /\ (VehicleController.code response = 200
            \/ VehicleController.code response = 404)).
Proof.
  intros T N. unfold VehicleController.updatePrice. autounfold with repo.
  rewrite T. simpl. rewrite N. unfold updatePrice. autounfold with repo.
  simpl. repeat split.
  - intros e A. rewrite A. reflexivity.
  - destruct (answer 0) as [result|e]; simpl; [|eauto].
    destruct (rows result) as [|row rows']; simpl; [eauto|].
    destruct (mapRowToVehicle JSON_parse row); simpl; eauto.
Qed.

Lemma controller_updatePrice_status_codes_witness :
  (forall e,
     runDb (VehicleController.updatePrice sampleParse (Some "v1")
              (VehicleController.BodyNumber (Js.Finite false 18000 0)))
       (Js.Rejected e) databaseDown 0
     = ([EvConnect; EvLogError e "update_vehicle_price" (Some "v1")],
        Js.Fulfilled
          (VehicleController.failure 500 "Failed to update vehicle price")))
  /\ (forall e,
        databaseDown 0 = Js.Rejected e ->
        snd (runDb (VehicleController.updatePrice sampleParse (Some "v1")
                      (VehicleController.BodyNumber (Js.Finite false 18000 0)))
               (Js.Fulfilled tt) databaseDown 0)
        = Js.Fulfilled (VehicleController.failure 404 "Vehicle not found"))
  /\ (exists response,
        snd (runDb (VehicleController.updatePrice sampleParse (Some "v1")
                      (VehicleController.BodyNumber (Js.Finite false 18000 0)))
               (Js.Fulfilled tt) databaseDown 0)
        = Js.Fulfilled response
        /\ (VehicleController.code response = 200
            \/ VehicleController.code response = 404)).
Proof.
  apply (controller_updatePrice_status_codes string sampleParse (Some "v1")
           "v1" (Js.Finite false 18000 0) databaseDown).
  - reflexivity.
  - reflexivity.
Defined.

(** ** Properties of the guards *)

Ltac unchanged := let H := fresh in intros H; exfalso; apply H; reflexivity.

(** A request to POST /price-processor/trigger starts a run only if it
    carries a token in the second piece of its Authorization header, the
    token verifies, its payload has the role admin, the user of the
    payload exists and is active, and no run is in progress. *)
Theorem trigger_route_runs_for_admins_only
    verifyToken findById req sys :
  pool (snd (Auth.triggerRoute verifyToken findById req sys)) <> pool sys ->
  exists header token payload found,
    Auth.authorization req = Some header
    /\ nth_error (Auth.split header) 1 = Some token
    /\ verifyToken token = Some payload
    /\ Auth.role payload = Auth.ADMIN
    /\ findById (Auth.userId payload) = Js.Fulfilled (Some found)
    /\ Auth.user_isActive found = true
    /\ isCurrentlyProcessing (service sys) = false.
Proof.
  unfold Auth.triggerRoute, Auth.authenticateToken, Auth.bearerToken.
  destruct (truthy (Auth.authorization req)) as [header|] eqn:A; [|unchanged].
  apply truthy_some in A.
  destruct (truthy (nth_error (Auth.split header) 1)) as [token|] eqn:N;
    [|unchanged].
  apply truthy_some in N.
  destruct (verifyToken token) as [payload|] eqn:V; [|unchanged].
  destruct (findById (Auth.userId payload)) as [[found|]|e] eqn:F;
    try unchanged.
  destruct (Auth.user_isActive found) eqn:Act; [|unchanged].
  cbn [negb fst]. unfold Auth.requireRole. cbn [Auth.user negb].
  unfold Auth.hasRole.
  destruct (Auth.role payload) eqn:R; try unchanged.
  cbn. unfold triggerPriceProcessing.
  destruct (isCurrentlyProcessing (service sys)) eqn:P; [unchanged|].
  intros _. exists header, token, payload, found. repeat split; auto.
Qed.

Lemma trigger_route_runs_for_admins_only_witness :
  exists header token payload found,
    Auth.authorization adminRequest = Some header
    /\ nth_error (Auth.split header) 1 = Some token
    /\ knownToken token = Some payload
    /\ Auth.role payload = Auth.ADMIN
    /\ userTable (Auth.userId payload) = Js.Fulfilled (Some found)
    /\ Auth.user_isActive found = true
    /\ isCurrentlyProcessing (service (boot sampleWorld)) = false.
Proof.
  apply (trigger_route_runs_for_admins_only knownToken userTable adminRequest
           (boot sampleWorld)).
  simpl. discriminate.
Defined.

(** [optionalAuth] always lets the request through: with the user that
    [authenticateToken] would attach when that guard accepts the request,
    and unchanged in every case where that guard would answer 401 or
    500. *)
Theorem optionalAuth_agrees_with_authenticateToken
    verifyToken findById req :
  Auth.optionalAuth verifyToken findById req
  = match fst (Auth.authenticateToken verifyToken findById req) with
    | Auth.Next accepted => Auth.Next accepted
    | Auth.Answer _ => Auth.Next req
    end.
Proof.
  unfold Auth.optionalAuth, Auth.authenticateToken.
  destruct (Auth.bearerToken (Auth.authorization req)) as [token|];
    [|reflexivity].
  destruct (verifyToken token) as [payload|]; [|reflexivity].
  destruct (findById (Auth.userId payload)) as [[found|]|e]; try reflexivity.
  destruct (Auth.user_isActive found); reflexivity.
Qed.

(** [requireAdmin] and [requireRole([UserRole.ADMIN])] decide alike:
    without a user on the request both answer 401 'Authentication
    required'; with a user whose role is admin both call [next()] with
    the request unchanged; with a user of another role both answer 403,
    the first with 'Admin access required' and the second with
    'Insufficient permissions'. *)
Theorem requireAdmin_is_requireRole_admin req :
  match Auth.user req with
  | None =>
      Auth.requireRole [Auth.ADMIN] req
      = Auth.deny 401 "Authentication required"
      /\ Auth.requireAdmin req = Auth.deny 401 "Authentication required"
  | Some payload =>
      match Auth.role payload with
      | Auth.ADMIN =>
          Auth.requireRole [Auth.ADMIN] req = Auth.Next req
          /\ Auth.requireAdmin req = Auth.Next req
      | Auth.SALES | Auth.CUSTOMER =>
          Auth.requireRole [Auth.ADMIN] req
          = Auth.deny 403 "Insufficient permissions"
          /\ Auth.requireAdmin req = Auth.deny 403 "Admin access required"
      end
  end.
Proof.
  unfold Auth.requireRole, Auth.requireAdmin, Auth.hasRole, Auth.isAdmin.
  destruct (Auth.user req) as [payload|]; [|split; reflexivity].
  destruct (Auth.role payload); split; reflexivity.
Qed.
